(** * The migration applier of bot_dar_stars

    A shallow embedding of the two programs that apply
    [migrations/001_create_tables.sql] to the Postgres store:

    - [src/app/api/migrate/route.ts]: the Next.js route with its two
      handlers, [POST] (apply) and [GET] (read the script);
    - the Node command line script [applyMigration] (the CLI twin).

    Both programs are sequences of effects (reads of [process.env], of the
    request headers and of the file system, calls of the [pg] client) with
    JavaScript [try]/[catch] around them.  They are written here in a small
    state-and-exception monad that also records the effects in a trace, so
    that "nothing was contacted before the rejection" and "the client was
    ended on every path" are statements about that trace. *)

From Stdlib Require Import String Ascii List Bool Arith Lia Sorted.
From stdpp Require Import gmap strings.
Import ListNotations.

Open Scope string_scope.
Open Scope list_scope.

(** ** JavaScript strings *)

Module Js.

(** [s.includes(needle)] *)
Fixpoint includes (needle s : string) : bool :=
  String.prefix needle s ||
  match s with
  | EmptyString => false
  | String _ s' => includes needle s'
  end.

(** the characters of [s] from index [n] on *)
Fixpoint drop (n : nat) (s : string) : string :=
  match n, s with
  | O, _ => s
  | S _, EmptyString => EmptyString
  | S n', String _ s' => drop n' s'
  end.

(** [s.replace(pat, rep)] with a string pattern: only the first occurrence
    is replaced.  ([rep] holds no [$] in the code.) *)
Fixpoint replace (pat rep s : string) : string :=
  if String.prefix pat s then rep +:+ drop (String.length pat) s
  else match s with
       | EmptyString => EmptyString
       | String c s' => String c (replace pat rep s')
       end.

(** [s.split(c)[0]]: the text before the first [c], the whole string when
    there is none. *)
Fixpoint before (c : ascii) (s : string) : string :=
  match s with
  | EmptyString => EmptyString
  | String d s' => if Ascii.eqb c d then EmptyString else String d (before c s')
  end.

(** A value of [process.env] or of [headers.get] is [undefined]/[null]
    ([None]) or a string; it is truthy when it is a non-empty string.
    [nonempty v] is that string. *)
Definition nonempty (v : option string) : option string :=
  match v with
  | Some s => if String.eqb s "" then None else Some s
  | None => None
  end.

Definition truthy (v : option string) : bool :=
  match nonempty v with Some _ => true | None => false end.

(** The template literal [`Bearer ${secret}`]. *)
Definition bearer (secret : option string) : string :=
  "Bearer " +:+ match secret with Some s => s | None => "undefined" end.

(** A thrown value.  [catch (error)] binds whatever was thrown: an [Error]
    instance with its [message], or some other value, one that is neither an
    [Error] nor has a [message] (a string, a number). *)
Inductive thrown : Type :=
| ErrorObj (msg : string)
| NonError.

(** [error instanceof Error ? error.message : 'Unknown error'] *)
Definition error_message (e : thrown) : string :=
  match e with
  | ErrorObj m => m
  | NonError => "Unknown error"
  end.

End Js.

(** ** The effects and their monad *)

(** What the CLI prints.  The text of the console output is not modelled,
    only which block of [console.log]/[console.error] calls ran; the
    comments give the lines of the script. *)
Inductive cli_note : Type :=
| NoteBanner                       (* 13-14 *)
| NoteMissingUrl                   (* 26-33: how to obtain SUPABASE_DB_URL *)
| NoteDashboardAlternative         (* 36-39 *)
| NoteFileMissing (path : string)  (* 49 *)
| NoteConnecting                   (* 55 *)
| NoteSupabaseUrl (url : string)   (* 57 *)
| NotePoolerDetected               (* 64 *)
| NoteConnectionUrl                (* 75: the masked URL *)
| NoteConnected                    (* 86 *)
| NoteApplying                     (* 88 *)
| NoteApplied                      (* 93 *)
| NoteChecking                     (* 96 *)
| NoteFound (names : list string)  (* 106-109 *)
| NoteNoTables                     (* 111 *)
| NoteDone                         (* 116-117 *)
| NoteError (msg : option string)  (* 122-123: error.message, maybe undefined *)
| AdviceNetwork                    (* 126-133 *)
| AdvicePassword                   (* 135-139 *)
| AdviceAlreadyExists              (* 141-143 *)
| AdviceGeneral                    (* 145-151 *)
| NoteCritical.                    (* 159 *)

(** What the handlers send through [client.query]: the text of the migration
    file, or the catalog query
    [SELECT table_name FROM information_schema.tables
     WHERE table_schema = '<schema>' AND table_name LIKE '<pattern>'
     ORDER BY table_name].
    The route and the CLI write that query with different indentation and
    nothing else different, so it is kept as its two literals, not as text. *)
Inductive statement : Type :=
| Batch (sql : string)
| SelectTableNames (table_schema like_pattern : string).

Inductive event : Type :=
| EnvRead (name : string)             (* process.env.NAME *)
| HeaderRead (name : string)          (* request.headers.get(name) *)
| FsExists (path : string)            (* fs.existsSync(path) *)
| FsRead (path : string)              (* fs.readFileSync(path, 'utf-8') *)
| PgConnect (connectionString : string)  (* client.connect() *)
| PgQuery (q : statement)             (* client.query(text) *)
| PgEnd                               (* client.end() *)
| Console (note : cli_note).

Inductive outcome (A : Type) : Type :=
| Ret (a : A)
| Throw (e : Js.thrown).
Arguments Ret {A} a.
Arguments Throw {A} e.

(** A row of the catalog query: [row.table_name]. *)
Record Row : Type := { table_name : string }.

(** The [pg] client, as the handlers use it.  [St] is the state of the store
    (and of the connection); a call returns or throws and moves the state. *)
Class PgClient (St : Type) : Type := {
  pg_connect : string -> St -> outcome unit * St;
  pg_query : statement -> St -> outcome (list Row) * St;
  pg_end : St -> outcome unit * St
}.

(** What is at a path of the file system. *)
Inductive file_state : Type :=
| Missing                          (* existsSync is false *)
| File (content : string)          (* a file that reads as [content] *)
| Unreadable (e : Js.thrown).      (* existsSync is true, readFileSync throws *)

(** The Node process: [process.env] (for the CLI: after dotenv has loaded the
    .env files), [process.cwd()], [__dirname] of the CLI script, and the file
    system. *)
Record Node : Type := {
  env : gmap string string;
  cwd : string;
  dirname : string;
  fs : string -> file_state
}.

(** The request: its headers, keyed by lower-case name. *)
Record Request : Type := { headers : gmap string string }.

Section Monad.
Context {St : Type}.

Definition act (A : Type) : Type := St -> outcome A * St * list event.

Definition ret {A} (a : A) : act A := fun s => (Ret a, s, []).

Definition throw {A} (e : Js.thrown) : act A := fun s => (Throw e, s, []).

Definition bind {A B} (m : act A) (k : A -> act B) : act B :=
  fun s =>
    match m s with
    | (Ret a, s1, t1) => let '(r, s2, t2) := k a s1 in (r, s2, t1 ++ t2)
    | (Throw e, s1, t1) => (Throw e, s1, t1)
    end.

(** [try { m } catch (e) { h e }] *)
Definition try_catch {A} (m : act A) (h : Js.thrown -> act A) : act A :=
  fun s =>
    match m s with
    | (Ret a, s1, t1) => (Ret a, s1, t1)
    | (Throw e, s1, t1) => let '(r, s2, t2) := h e s1 in (r, s2, t1 ++ t2)
    end.

Definition emit (e : event) : act unit := fun s => (Ret tt, s, [e]).

Definition log (n : cli_note) : act unit := emit (Console n).

End Monad.
Arguments act St A : clear implicits.

Declare Scope act_scope.
Delimit Scope act_scope with act.
Notation "'let!' x ':=' m 'in' k" := (bind m (fun x => k))
  (at level 10, x name, m at level 100, k at level 200) : act_scope.
Notation "m ';;' k" := (bind m (fun _ => k))
  (at level 100, k at level 200, right associativity) : act_scope.
Open Scope act_scope.

Section Effects.
Context {St : Type} `{PgClient St}.

Definition getenv (nd : Node) (name : string) : act St (option string) :=
  emit (EnvRead name);; ret (env nd !! name).

(** [process.env.NAME || rest]: [rest] is evaluated only when the first
    operand is falsy. *)
Definition env_or (nd : Node) (name : string) (rest : act St (option string))
  : act St (option string) :=
  let! v := getenv nd name in
  if Js.truthy v then ret v else rest.

Definition header_get (req : Request) (name : string) : act St (option string) :=
  emit (HeaderRead name);; ret (headers req !! name).

Definition existsSync (nd : Node) (path : string) : act St bool :=
  emit (FsExists path);;
  ret (match fs nd path with Missing => false | _ => true end).

Definition readFileSync (nd : Node) (path : string) : act St string :=
  emit (FsRead path);;
  match fs nd path with
  | File content => ret content
  | Unreadable e => throw e
  | Missing => throw (Js.ErrorObj ("ENOENT: no such file or directory, open '" +:+ path +:+ "'"))
  end.

Definition connect (url : string) : act St unit :=
  fun s => let '(r, s') := pg_connect url s in (r, s', [PgConnect url]).

Definition query (q : statement) : act St (list Row) :=
  fun s => let '(r, s') := pg_query q s in (r, s', [PgQuery q]).

Definition client_end : act St unit :=
  fun s => let '(r, s') := pg_end s in (r, s', [PgEnd]).

End Effects.

(** ** The route: src/app/api/migrate/route.ts *)

(** The JSON body of a [NextResponse.json] with its HTTP status; a key the
    object literal does not have is [None]. *)
Record Response : Type := {
  status : nat;
  success : option bool;
  error : option string;
  message : option string;
  instructions : option (list string);
  tablesCreated : option (list string);
  tablesCount : option nat;
  sql : option string
}.

Definition dquote : string := String (ascii_of_nat 34) EmptyString.

(** lines 18-21 *)
Definition unauthorized : Response :=
  {| status := 401; success := None; error := Some "Unauthorized"; message := None;
     instructions := None; tablesCreated := None; tablesCount := None; sql := None |}.

(** lines 33-43 *)
Definition config_missing : Response :=
  {| status := 400; success := Some false;
     error := Some "SUPABASE_DB_URL не установлен в переменных окружения";
     message := None;
     instructions := Some
       [ "1. Добавьте SUPABASE_DB_URL в .env.local";
         "2. Получите Connection String из Supabase Dashboard → Settings → Database" ];
     tablesCreated := None; tablesCount := None; sql := None |}.

(** lines 50-53 and 119-122 *)
Definition not_found : Response :=
  {| status := 404; success := None; error := Some "Migration file not found";
     message := None; instructions := None; tablesCreated := None;
     tablesCount := None; sql := None |}.

(** lines 85-90; [NextResponse.json] without an init answers 200 *)
Definition applied (tables : list string) : Response :=
  {| status := 200; success := Some true; error := None;
     message := Some "Миграция успешно применена!";
     instructions := None; tablesCreated := Some tables;
     tablesCount := Some (length tables); sql := None |}.

Definition already_exists_note : string :=
  "Некоторые таблицы уже существуют. Это нормально, если миграция уже была применена ранее.".

(** lines 98-109: the outer [catch] of [POST] *)
Definition apply_failed (e : Js.thrown) : Response :=
  let errorMessage := Js.error_message e in
  {| status := 500; success := Some false; error := Some errorMessage;
     message := if Js.includes "already exists" errorMessage
                then Some already_exists_note else None;
     instructions := None; tablesCreated := None; tablesCount := None; sql := None |}.

(** lines 127-135 *)
Definition script_text (text : string) : Response :=
  {| status := 200; success := Some true; error := None; message := None;
     instructions := Some
       [ "1. Откройте Supabase Dashboard → SQL Editor";
         "2. Скопируйте SQL из поля " +:+ dquote +:+ "sql" +:+ dquote;
         "3. Вставьте в редактор и нажмите " +:+ dquote +:+ "Run" +:+ dquote ];
     tablesCreated := None; tablesCount := None; sql := Some text |}.

(** lines 137-143: the [catch] of [GET] *)
Definition read_failed (e : Js.thrown) : Response :=
  {| status := 500; success := Some false; error := Some (Js.error_message e);
     message := None; instructions := None; tablesCreated := None;
     tablesCount := None; sql := None |}.

(** The catalog query of lines 73-79 (and of lines 97-103 of the CLI). *)
Definition catalog_query : statement := SelectTableNames "public" "telegram_%".

Definition migration_name : string := "001_create_tables.sql".

Section Programs.
Context {St : Type} `{PgClient St}.

(** [path.join] of Node, which is not code of this repository. *)
Variable path_join : list string -> string.

(** lines 26-30 of the route, 17-21 of the CLI *)
Definition databaseUrl (nd : Node) : act St (option string) :=
  env_or nd "SUPABASE_DB_URL"
    (env_or nd "DATABASE_URL"
       (env_or nd "POSTGRES_URL"
          (getenv nd "POSTGRES_PRISMA_URL"))).

(** lines 13-23: [true] when the request is turned away, that is when
    [!secret || authHeader !== `Bearer ${secret}`]. *)
Definition gate (nd : Node) (req : Request) : act St bool :=
  let! nodeEnv := getenv nd "NODE_ENV" in
  if bool_decide (nodeEnv = Some "production") then
    let! authHeader := header_get req "authorization" in
    let! secret := getenv nd "MIGRATION_SECRET" in
    ret (negb (Js.truthy secret)
         || negb (bool_decide (authHeader = Some (Js.bearer secret))))
  else ret false.

(** lines 66-95: the inner [try]/[catch] around the client *)
Definition apply_with_client (url text : string) : act St Response :=
  try_catch
    (connect url;;
     query (Batch text);;
     let! result := query catalog_query in
     let tables := map table_name result in
     client_end;;
     ret (applied tables))
    (fun dbError => client_end;; throw dbError).

(** lines 11-96: the body of the outer [try] *)
Definition POST_try (nd : Node) (req : Request) : act St Response :=
  let! rejected := gate nd req in
  if rejected then ret unauthorized else
  let! url := databaseUrl nd in
  match Js.nonempty url with
  | None => ret config_missing
  | Some connectionString =>
      let migrationFile := path_join [cwd nd; "migrations"; migration_name] in
      let! present := existsSync nd migrationFile in
      if negb present then ret not_found else
      let! text := readFileSync nd migrationFile in
      apply_with_client connectionString text
  end.

(** [export async function POST(request)] *)
Definition POST (nd : Node) (req : Request) (s : St) : Response * St * list event :=
  match POST_try nd req s with
  | (Ret r, s', t) => (r, s', t)
  | (Throw e, s', t) => (apply_failed e, s', t)
  end.

(** [export async function GET()] *)
Definition GET_try (nd : Node) : act St Response :=
  let migrationFile := path_join [cwd nd; "migrations"; migration_name] in
  let! present := existsSync nd migrationFile in
  if negb present then ret not_found else
  let! text := readFileSync nd migrationFile in
  ret (script_text text).

Definition GET (nd : Node) (s : St) : Response * St * list event :=
  match GET_try nd s with
  | (Ret r, s', t) => (r, s', t)
  | (Throw e, s', t) => (read_failed e, s', t)
  end.

(** *** The command line script *)

(** lines 125-152: which advice the script prints for an error message *)
Definition advice (msg : string) : cli_note :=
  if Js.includes "getaddrinfo" msg || Js.includes "ENOTFOUND" msg then AdviceNetwork
  else if Js.includes "password" msg || Js.includes "authentication" msg then AdvicePassword
  else if Js.includes "already exists" msg then AdviceAlreadyExists
  else AdviceGeneral.

(** lines 62-71: a pooler URL is rewritten to the direct host and loses its
    query string *)
Definition direct_url (url : string) : string :=
  if Js.includes "pooler.supabase.com" url then
    let connUrl := Js.replace "pooler.supabase.com" "db.supabase.co" url in
    if Js.includes "?" connUrl then Js.before "?" connUrl else connUrl
  else url.

(** lines 84-155: the [try]/[catch] around the client.  The result is the
    code given to [process.exit], [None] when the block runs to its end.
    In the [catch], [error.message.includes] throws a [TypeError] when the
    caught value has no [message]. *)
Definition migrate_with_client (connUrl text : string) : act St (option nat) :=
  try_catch
    (connect connUrl;;
     log NoteConnected;;
     log NoteApplying;;
     query (Batch text);;
     log NoteApplied;;
     log NoteChecking;;
     let! result := query catalog_query in
     (if Nat.ltb 0 (length result) then log (NoteFound (map table_name result))
      else log NoteNoTables);;
     client_end;;
     log NoteDone;;
     ret None)
    (fun error =>
       client_end;;
       match error with
       | Js.ErrorObj msg =>
           log (NoteError (Some msg));;
           log (advice msg);;
           ret (Some 1)
       | Js.NonError =>
           log (NoteError None);;
           throw (Js.ErrorObj "Cannot read properties of undefined (reading 'includes')")
       end).

(** [async function applyMigration()], lines 12-156 *)
Definition applyMigration (nd : Node) : act St (option nat) :=
  log NoteBanner;;
  let! url := databaseUrl nd in
  let! supabaseUrl := env_or nd "NEXT_PUBLIC_SUPABASE_URL" (getenv nd "SUPABASE_URL") in
  match Js.nonempty url with
  | None =>
      log NoteMissingUrl;;
      (if Js.truthy supabaseUrl then log NoteDashboardAlternative else ret tt);;
      ret (Some 1)
  | Some connectionString =>
      let migrationFile := path_join [dirname nd; ".."; "migrations"; migration_name] in
      let! present := existsSync nd migrationFile in
      if negb present then log (NoteFileMissing migrationFile);; ret (Some 1) else
      let! text := readFileSync nd migrationFile in
      log NoteConnecting;;
      match Js.nonempty supabaseUrl with
      | Some u => log (NoteSupabaseUrl u)
      | None => ret tt
      end;;
      (if Js.includes "pooler.supabase.com" connectionString
       then log NotePoolerDetected else ret tt);;
      log NoteConnectionUrl;;
      migrate_with_client (direct_url connectionString) text
  end.

(** lines 158-161: the script's exit code.  A rejection of
    [applyMigration()] is caught, reported, and exits with 1; a run that
    comes to its end leaves the process to exit with 0. *)
Definition migrate_cli (nd : Node) (s : St) : nat * St * list event :=
  match applyMigration nd s with
  | (Ret (Some code), s', t) => (code, s', t)
  | (Ret None, s', t) => (0, s', t)
  | (Throw _, s', t) => (1, s', t ++ [Console NoteCritical])
  end.

End Programs.

(** ** A model of the store *)

(** The store is Postgres, outside this repository.  What the handlers rely
    on is modelled here: the catalog the query reads, and how the store
    answers [LIKE] and [ORDER BY]. *)
Module Pg.

(** [s LIKE pattern] of SQL: [%] stands for any run of characters, [_] for
    exactly one, a backslash makes the next character of the pattern stand
    for itself. *)
Fixpoint like (pat : string) : string -> bool :=
  match pat with
  | EmptyString => fun s => String.eqb s ""
  | String "%" p =>
      fix any (s : string) : bool :=
        like p s || match s with
                    | EmptyString => false
                    | String _ s' => any s'
                    end
  | String "_" p =>
      fun s => match s with
               | EmptyString => false
               | String _ s' => like p s'
               end
  | String "\" (String c p) =>
      fun s => match s with
               | EmptyString => false
               | String d s' => Ascii.eqb c d && like p s'
               end
  | String c p =>
      fun s => match s with
               | EmptyString => false
               | String d s' => Ascii.eqb c d && like p s'
               end
  end.

(** [ORDER BY table_name]: ascending in the order of the bytes. *)
Fixpoint insert_sorted (x : string) (l : list string) : list string :=
  match l with
  | [] => [x]
  | y :: l' => if String.leb x y then x :: l else y :: insert_sorted x l'
  end.

Definition order_by (l : list string) : list string :=
  fold_right insert_sorted [] l.

(** A line of [information_schema.tables]. *)
Record table : Type := { schema_of : string; name_of : string }.

(** The store: its catalog, and what a connection attempt and a batch do.
    A batch throws or leaves a new catalog. *)
Record store : Type := {
  tables : list table;
  on_connect : string -> option Js.thrown;
  on_batch : string -> list table -> Js.thrown + list table
}.

Definition select_table_names (schema pattern : string) (cat : list table) : list Row :=
  map (fun n => {| table_name := n |})
      (order_by
         (map name_of
            (List.filter (fun t => String.eqb (schema_of t) schema && like pattern (name_of t))
                    cat))).

#[global] Instance client : PgClient store := {
  pg_connect url s :=
    match on_connect s url with
    | None => (Ret tt, s)
    | Some e => (Throw e, s)
    end;
  pg_query q s :=
    match q with
    | Batch text =>
        match on_batch s text (tables s) with
        | inl e => (Throw e, s)
        | inr cat => (Ret [], {| tables := cat; on_connect := on_connect s;
                                 on_batch := on_batch s |})
        end
    | SelectTableNames schema pattern =>
        (Ret (select_table_names schema pattern (tables s)), s)
    end;
  pg_end s := (Ret tt, s)
}.

End Pg.

(** ** What the trace of a run touches *)

(** The four names the connection descriptor is read from. *)
Definition descriptor_names : list string :=
  ["SUPABASE_DB_URL"; "DATABASE_URL"; "POSTGRES_URL"; "POSTGRES_PRISMA_URL"].

Definition reads_descriptor (e : event) : bool :=
  match e with
  | EnvRead name => existsb (String.eqb name) descriptor_names
  | _ => false
  end.

Definition touches_store (e : event) : bool :=
  match e with
  | PgConnect _ | PgQuery _ | PgEnd => true
  | _ => false
  end.

(** The calls of the client in a trace. *)
Definition store_calls (t : list event) : list event := List.filter touches_store t.

(** Every [client.connect()] of the trace has a [client.end()] after it. *)
Fixpoint released (t : list event) : bool :=
  match t with
  | [] => true
  | PgConnect _ :: t' => existsb (fun e => match e with PgEnd => true | _ => false end) t'
                         && released t'
  | _ :: t' => released t'
  end.

(** The first non-empty value among the descriptor names, in their order
    (the spec's "first non-empty wins"). *)
Definition first_non_empty (nd : Node) : option string :=
  head (omap (fun name => Js.nonempty (env nd !! name)) descriptor_names).

(** The request passes the gate of lines 13-23: the deployment is not a
    production one, or the header is [Bearer] and the configured non-empty
    secret. *)
Definition admitted (nd : Node) (req : Request) : Prop :=
  env nd !! "NODE_ENV" ≠ Some "production" ∨
  ∃ secret, env nd !! "MIGRATION_SECRET" = Some secret ∧ secret ≠ "" ∧
            headers req !! "authorization" = Some ("Bearer " +:+ secret).

(** The two markers of an outcome in the JSON body. *)
Definition is_success (r : Response) : Prop := success r = Some true.
Definition is_failure (r : Response) : Prop := success r = Some false ∨ is_Some (error r).

(** A trace without any call of the client. *)
Definition quiet (t : list event) : Prop := Forall (fun e => touches_store e = false) t.

(** The bodies [POST] can answer with. *)
Inductive route_response : Response → Prop :=
| answers_unauthorized : route_response unauthorized
| answers_config_missing : route_response config_missing
| answers_not_found : route_response not_found
| answers_applied tables : route_response (applied tables)
| answers_apply_failed e : route_response (apply_failed e).

(** ** Concrete runs *)

(** A [path.join] for the runs below: the parts are joined with [/], and
    empty, [.] and [..] segments are resolved. *)
Fixpoint split_slash (s : string) : list string :=
  match s with
  | EmptyString => [EmptyString]
  | String c s' =>
      if Ascii.eqb c "/" then EmptyString :: split_slash s'
      else match split_slash s' with
           | [] => [String c EmptyString]
           | seg :: rest => String c seg :: rest
           end
  end.

Definition resolve (stack : list string) (seg : string) : list string :=
  if String.eqb seg "" || String.eqb seg "." then stack
  else if String.eqb seg ".." then tl stack
  else seg :: stack.

Definition posix_join (parts : list string) : string :=
  let joined := String.concat "/" parts in
  let body := String.concat "/" (rev (fold_left resolve (split_slash joined) [])) in
  if String.prefix "/" joined then "/" +:+ body else body.

Definition migration_path : string := "/app/migrations/001_create_tables.sql".

Definition script : string :=
  "CREATE TABLE IF NOT EXISTS telegram_users (id BIGSERIAL PRIMARY KEY);".

Definition on_disk (state : file_state) (path : string) : file_state :=
  if String.eqb path migration_path then state else Missing.

Definition direct : string :=
  "postgresql://postgres:pw@db.abcd.supabase.co:5432/postgres".

Definition pooled : string :=
  "postgresql://postgres.abcd:pw@aws-0-eu-central-1.pooler.supabase.com:6543/postgres?pgbouncer=true".

(** A development process with one descriptor and the migration file. *)
Definition development : Node :=
  {| env := {[ "DATABASE_URL" := direct ]};
     cwd := "/app"; dirname := "/app/scripts"; fs := on_disk (File script) |}.

(** The same with two descriptors; DATABASE_URL comes before POSTGRES_URL. *)
Definition two_descriptors : Node :=
  {| env := {[ "POSTGRES_URL" := pooled; "DATABASE_URL" := direct ]};
     cwd := "/app"; dirname := "/app/scripts"; fs := on_disk (File script) |}.

(** A development process without any descriptor. *)
Definition unconfigured : Node :=
  {| env := ∅; cwd := "/app"; dirname := "/app/scripts"; fs := on_disk (File script) |}.

(** A development process whose descriptor is the pooler URL. *)
Definition through_pooler : Node :=
  {| env := {[ "SUPABASE_DB_URL" := pooled ]};
     cwd := "/app"; dirname := "/app/scripts"; fs := on_disk (File script) |}.

(** Production, with the secret and a descriptor. *)
Definition production : Node :=
  {| env := {[ "NODE_ENV" := "production"; "MIGRATION_SECRET" := "s3cret";
               "DATABASE_URL" := direct ]};
     cwd := "/app"; dirname := "/app/scripts"; fs := on_disk (File script) |}.

(** Production where nobody has set MIGRATION_SECRET, nor a descriptor. *)
Definition production_bare : Node :=
  {| env := {[ "NODE_ENV" := "production" ]};
     cwd := "/app"; dirname := "/app/scripts"; fs := on_disk (File script) |}.

(** Production where nobody has set MIGRATION_SECRET. *)
Definition production_without_secret : Node :=
  {| env := {[ "NODE_ENV" := "production"; "DATABASE_URL" := direct ]};
     cwd := "/app"; dirname := "/app/scripts"; fs := on_disk (File script) |}.

(** A process where the migration path cannot be read. *)
Definition unreadable_file : Node :=
  {| env := ∅; cwd := "/app"; dirname := "/app/scripts";
     fs := on_disk (Unreadable (Js.ErrorObj
             "EACCES: permission denied, open '/app/migrations/001_create_tables.sql'")) |}.

(** Production where the migration path cannot be read. *)
Definition production_unreadable : Node :=
  {| env := {[ "NODE_ENV" := "production"; "MIGRATION_SECRET" := "s3cret" ]};
     cwd := "/app"; dirname := "/app/scripts";
     fs := on_disk (Unreadable (Js.ErrorObj
             "EACCES: permission denied, open '/app/migrations/001_create_tables.sql'")) |}.

Definition anonymous : Request := {| headers := ∅ |}.
Definition wrong_bearer : Request := {| headers := {[ "authorization" := "Bearer guess" ]} |}.
Definition right_bearer : Request := {| headers := {[ "authorization" := "Bearer s3cret" ]} |}.
Definition undefined_bearer : Request :=
  {| headers := {[ "authorization" := "Bearer undefined" ]} |}.

Definition public (name : string) : Pg.table := {| Pg.schema_of := "public"; Pg.name_of := name |}.

(** The batch of [script] on a catalog: the table is created if absent. *)
Definition create_users (cat : list Pg.table) : list Pg.table :=
  if existsb (fun t => String.eqb (Pg.schema_of t) "public"
                       && String.eqb (Pg.name_of t) "telegram_users") cat
  then cat else cat ++ [public "telegram_users"].

(** An empty store that accepts the script. *)
Definition fresh : Pg.store :=
  {| Pg.tables := []; Pg.on_connect := fun _ => None;
     Pg.on_batch := fun _ cat => inr (create_users cat) |}.

(** A shared schema: another application owns [telegraph_lines] and
    [telegrams]; there is also an [auth.telegram_ids]. *)
Definition shared : Pg.store :=
  {| Pg.tables := [ public "telegraph_lines"; public "telegrams";
                    {| Pg.schema_of := "auth"; Pg.name_of := "telegram_ids" |} ];
     Pg.on_connect := fun _ => None;
     Pg.on_batch := fun _ cat => inr (create_users cat) |}.

(** A store that cannot be reached. *)
Definition unreachable : Pg.store :=
  {| Pg.tables := []; Pg.on_connect := fun _ => Some (Js.ErrorObj "Connection terminated unexpectedly");
     Pg.on_batch := fun _ cat => inr cat |}.

(** A store where the batch fails with the text a lost connection gives. *)
Definition failing_batch : Pg.store :=
  {| Pg.tables := []; Pg.on_connect := fun _ => None;
     Pg.on_batch := fun _ _ => inl (Js.ErrorObj "Connection terminated unexpectedly") |}.

Definition already_exists_error : Js.thrown :=
  Js.ErrorObj ("relation " +:+ dquote +:+ "telegram_users" +:+ dquote +:+ " already exists").

(** A store where the batch aborts because an object is there already. *)
Definition migrated : Pg.store :=
  {| Pg.tables := [public "telegram_users"]; Pg.on_connect := fun _ => None;
     Pg.on_batch := fun _ _ => inl already_exists_error |}.

(** A store that is reached through the pooler host only: the direct host
    the CLI derives from it does not resolve. *)
Definition behind_pooler : Pg.store :=
  {| Pg.tables := [];
     Pg.on_connect := fun url =>
       if String.eqb url pooled then None
       else Some (Js.ErrorObj "getaddrinfo ENOTFOUND aws-0-eu-central-1.db.supabase.co");
     Pg.on_batch := fun _ cat => inr (create_users cat) |}.

Definition response_of {S : Type} (run : Response * S * list event) : Response := fst (fst run).
Definition trace_of {A S : Type} (run : A * S * list event) : list event := snd run.
Definition exit_code {S : Type} (run : nat * S * list event) : nat := fst (fst run).

(** The table names the specification describes: those of schema [public]
    that start with [telegram_], in ascending order. *)
Definition prefixed_tables (cat : list Pg.table) : list string :=
  Pg.order_by
    (map Pg.name_of
       (List.filter (fun t => String.eqb (Pg.schema_of t) "public"
                              && String.prefix "telegram_" (Pg.name_of t)) cat)).

(** ** The rest of the application *)

(** What a trace may hold: [emits P m] when every run of [m] records only
    events that satisfy [P]. *)
Definition emits {St A : Type} (P : event → Prop) (m : act St A) : Prop :=
  ∀ s, Forall P (snd (m s)).

(** The events [POST] may record in a process [nd]: reads of [NODE_ENV], of
    [MIGRATION_SECRET] and of the four descriptor names, of the
    [authorization] header, of the one migration path, and calls of the
    client with the batch or the catalog query. *)
Definition route_event (file : string) (e : event) : Prop :=
  match e with
  | EnvRead name => In name ("NODE_ENV" :: "MIGRATION_SECRET" :: descriptor_names)
  | HeaderRead name => name = "authorization"
  | FsExists path | FsRead path => path = file
  | PgConnect _ | PgEnd => True
  | PgQuery q => q = catalog_query ∨ ∃ text, q = Batch text
  | Console _ => False
  end.

(** The events the CLI may record: it reads the four descriptor names and
    the two names of the Supabase URL, looks at the one migration path,
    calls the client, and prints. *)
Definition cli_event (file : string) (e : event) : Prop :=
  match e with
  | EnvRead name => In name ("NEXT_PUBLIC_SUPABASE_URL" :: "SUPABASE_URL" :: descriptor_names)
  | HeaderRead _ => False
  | FsExists path | FsRead path => path = file
  | PgConnect _ | PgEnd => True
  | PgQuery q => q = catalog_query ∨ ∃ text, q = Batch text
  | Console _ => True
  end.

(** An event that is not a read of a credential: of a header, or of
    [MIGRATION_SECRET]. *)
Definition no_credential_read (e : event) : Prop :=
  match e with
  | HeaderRead _ => False
  | EnvRead name => name ≠ "MIGRATION_SECRET"
  | _ => True
  end.

(** *** The Supabase clients: lib/supabase-server.ts and lib/supabase.ts *)

Module Supabase.

(** [a || b] where [b] is a string *)
Definition or_else (a : option string) (b : string) : string :=
  match Js.nonempty a with
  | Some s => s
  | None => b
  end.

(** lib/supabase-server.ts, line 3 *)
Definition server_url (env : gmap string string) : string :=
  or_else (env !! "SUPABASE_URL") (or_else (env !! "NEXT_PUBLIC_SUPABASE_URL") "").

(** lib/supabase-server.ts, lines 5-8 *)
Definition server_key (env : gmap string string) : string :=
  or_else (env !! "SUPABASE_SERVICE_ROLE_KEY")
    (or_else (env !! "SUPABASE_API_KEY")
       (or_else (env !! "NEXT_PUBLIC_SUPABASE_ANON_KEY") "")).

(** lib/supabase-server.ts, lines 10-12: whether the warning is printed *)
Definition server_warns (env : gmap string string) : bool :=
  String.eqb (server_url env) "" || String.eqb (server_key env) "".

(** lib/supabase.ts, line 3 *)
Definition anon_url (env : gmap string string) : string :=
  or_else (env !! "NEXT_PUBLIC_SUPABASE_URL") (or_else (env !! "SUPABASE_URL") "").

(** lib/supabase.ts, line 4 *)
Definition anon_key (env : gmap string string) : string :=
  or_else (env !! "NEXT_PUBLIC_SUPABASE_ANON_KEY") (or_else (env !! "SUPABASE_API_KEY") "").

(** lib/supabase.ts, lines 6-8 *)
Definition anon_warns (env : gmap string string) : bool :=
  String.eqb (anon_url env) "" || String.eqb (anon_key env) "".

(** The [error] of a reply of the client: its [code], its [message] (read
    with [?.] by the page) and whether it is an instance of [Error]. *)
Record PostgrestError : Type := {
  code : string;
  message : option string;
  is_Error : bool
}.

(** What awaiting a query gives: [{ data, error }], or a rejection. *)
Inductive reply (U : Type) : Type :=
| Reply (data : option (list U)) (error : option PostgrestError)
| Rejected (e : Js.thrown).
Arguments Reply {U} data error.
Arguments Rejected {U} e.

End Supabase.

(** *** The users route: [GET] of the first unnamed source file *)

Module Users.
Section Rows.
Context {U : Type}.

(** The JSON body with its status. *)
Record body : Type := {
  status : nat;
  success : bool;
  error : option string;
  count : option nat;
  data : option (list U)
}.

(** [export async function GET()], lines 4-33, on the reply to
    [from('telegram_users').select('*').limit(50).order('created_at', ...)] *)
Definition GET (r : Supabase.reply U) : body :=
  match r with
  | Supabase.Reply d (Some err) =>
      {| status := 500; success := false; error := Supabase.message err;
         count := None; data := None |}
  | Supabase.Reply d None =>
      {| status := 200; success := true; error := None;
         count := Some (match d with Some rows => length rows | None => 0 end);
         data := Some (match d with Some rows => rows | None => [] end) |}
  | Supabase.Rejected e =>
      {| status := 500; success := false;
         error := Some (match e with
                        | Js.ErrorObj m => m
                        | Js.NonError => "Неизвестная ошибка"
                        end);
         count := None; data := None |}
  end.

End Rows.
Arguments body U : clear implicits.
End Users.

(** *** The home page: [Home] of the first unnamed source file (from line 34) *)

Module Home.
Section Rows.
Context {U : Type}.

(** The three [useState] cells, lines 40-42. *)
Record state : Type := {
  users : list U;
  loading : bool;
  error : option string
}.

Definition initial : state := {| users := []; loading := true; error := None |}.

Definition message_includes (needle : string) (fe : Supabase.PostgrestError) : bool :=
  match Supabase.message fe with
  | Some m => Js.includes needle m
  | None => false
  end.

(** lines 63-70: the error says that the table is not there *)
Definition table_missing (fe : Supabase.PostgrestError) : bool :=
  String.eqb (Supabase.code fe) "PGRST205"
  || String.eqb (Supabase.code fe) "PGRST116"
  || message_includes "404" fe
  || message_includes "relation" fe
  || message_includes "does not exist" fe
  || message_includes "Could not find the table" fe.

(** [throw fetchError]: what [catch (err)] then sees of it.  Only
    [err instanceof Error] and, for an instance, [err.message] are looked
    at. *)
Definition thrown_error (fe : Supabase.PostgrestError) : Js.thrown :=
  if Supabase.is_Error fe
  then Js.ErrorObj (match Supabase.message fe with Some m => m | None => "" end)
  else Js.NonError.

(** lines 49-76: the [try] block; the rows for [setUsers], or what is
    thrown *)
Definition fetch_users (r : Supabase.reply U) : outcome (list U) :=
  match r with
  | Supabase.Reply d (Some fetchError) =>
      if table_missing fetchError then Throw (Js.ErrorObj "TABLE_NOT_FOUND")
      else Throw (thrown_error fetchError)
  | Supabase.Reply d None => Ret (match d with Some rows => rows | None => [] end)
  | Supabase.Rejected e => Throw e
  end.

(** lines 77-83: the [catch] block; the text for [setError] *)
Definition error_text (err : Js.thrown) : string :=
  match err with
  | Js.ErrorObj m =>
      if String.eqb m "TABLE_NOT_FOUND" then "TABLE_NOT_FOUND" else m
  | Js.NonError => "Неизвестная ошибка"
  end.

(** [loadUsers], lines 48-87: the state once the function has run on the
    reply [r]. *)
Definition loadUsers (r : Supabase.reply U) (st : state) : state :=
  let st1 := {| users := users st; loading := true; error := None |} in
  let st2 := match fetch_users r with
             | Ret rows => {| users := rows; loading := loading st1; error := error st1 |}
             | Throw err => {| users := users st1; loading := loading st1;
                               error := Some (error_text err) |}
             end in
  {| users := users st2; loading := false; error := error st2 |}.

(** What the page shows. *)
Inductive error_box : Type :=
| TableNotFound                 (* the yellow box with the way to /migrate *)
| OtherError (text : string).   (* the red box with the text *)

Inductive list_box : Type :=
| NoUsers                       (* "Пользователи не найдены" *)
| UserList (rows : list U).

Record view : Type := {
  shows_loading : bool;
  shows_error : option error_box;
  shows_list : option list_box
}.

(** lines 96-194: the three conditional blocks of the JSX *)
Definition render (st : state) : view :=
  {| shows_loading := loading st;
     shows_error :=
       match Js.nonempty (error st) with
       | Some e => Some (if String.eqb e "TABLE_NOT_FOUND" then TableNotFound
                         else OtherError e)
       | None => None
       end;
     shows_list :=
       if negb (loading st) && negb (Js.truthy (error st))
       then Some (if Nat.eqb (length (users st)) 0 then NoUsers else UserList (users st))
       else None |}.

End Rows.
Arguments state U : clear implicits.
Arguments view U : clear implicits.
Arguments list_box U : clear implicits.
End Home.

(** *** The migration page: src/app/migrate/page.tsx *)

(** The keys of the route's body, as the pages read them. *)
Definition body_success (r : Response) : option bool := success r.
Definition body_message (r : Response) : option string := message r.
Definition body_error (r : Response) : option string := error r.
Definition body_tablesCreated (r : Response) : option (list string) := tablesCreated r.
Definition body_sql (r : Response) : option string := sql r.


Module MigratePage.

(** The object given to [setApplyResult]. *)
Record result : Type := {
  success : bool;
  message : option string;
  error : option string;
  tablesCreated : option (list string)
}.

(** The four [useState] cells, lines 6-9. *)
Record state : Type := {
  sql : string;
  loading : bool;
  applying : bool;
  applyResult : option result
}.

Definition initial : state :=
  {| sql := ""; loading := true; applying := false; applyResult := None |}.

(** lines 11-25: the effect that loads the script.  [fetched] is the body
    the [fetch] of [/api/migrate] gave, [None] when the [fetch] or
    [res.json()] failed. *)
Definition load (fetched : option Response) (st : state) : state :=
  match fetched with
  | Some data =>
      {| sql := match Js.nonempty (body_sql data) with
                | Some text => text
                | None => sql st
                end;
         loading := false; applying := applying st; applyResult := applyResult st |}
  | None =>
      {| sql := sql st; loading := false; applying := applying st;
         applyResult := applyResult st |}
  end.

(** lines 43-48: the request of the page carries a content type and no
    [Authorization]. *)
Definition request : Request :=
  {| headers := {[ "content-type" := "application/json" ]} |}.

(** lines 34-72: [applyMigration].  [confirmed] is the answer to
    [confirm(...)]; [fetched] is the body of the [POST], or what the [fetch]
    or [response.json()] threw. *)
Definition applyMigration (confirmed : bool) (fetched : outcome Response) (st : state)
  : state :=
  if negb confirmed then st else
  let outcome :=
    match fetched with
    | Ret data =>
        if bool_decide (body_success data = Some true) then
          {| success := true;
             message := Some (match Js.nonempty (body_message data) with
                              | Some m => m
                              | None => "Миграция успешно применена!"
                              end);
             error := None;
             tablesCreated := body_tablesCreated data |}
        else
          {| success := false; message := None;
             error := Some (match Js.nonempty (body_error data) with
                            | Some e => e
                            | None => "Неизвестная ошибка"
                            end);
             tablesCreated := None |}
    | Throw err =>
        {| success := false; message := None;
           error := Some (match err with
                          | Js.ErrorObj m => m
                          | Js.NonError => "Ошибка при применении миграции"
                          end);
           tablesCreated := None |}
    end in
  {| sql := sql st; loading := loading st; applying := false;
     applyResult := Some outcome |}.

(** lines 121-169: what the page shows of the script *)
Inductive panel : Type :=
| Loading
| Script (text : string)   (* the text with the two buttons *)
| OpenTheFileByHand.       (* "Не удалось загрузить SQL ..." *)

Definition script_panel (st : state) : panel :=
  if loading st then Loading
  else if negb (String.eqb (sql st) "") then Script (sql st)
  else OpenTheFileByHand.

(** lines 27-32: [copyToClipboard] writes the script when there is one *)
Definition copyToClipboard (st : state) : option string :=
  if negb (String.eqb (sql st) "") then Some (sql st) else None.

End MigratePage.

(** A client that answers from a script: each call takes the next answer;
    when the script is over every call returns. *)
Module Scripted.

Definition next {A} (ok : list Row → A) (s : list (outcome (list Row)))
  : outcome A * list (outcome (list Row)) :=
  match s with
  | [] => (Ret (ok []), [])
  | Ret rows :: s' => (Ret (ok rows), s')
  | Throw e :: s' => (Throw e, s')
  end.

#[global] Instance client : PgClient (list (outcome (list Row))) := {
  pg_connect _ s := next (fun _ => tt) s;
  pg_query _ s := next (fun rows => rows) s;
  pg_end s := next (fun _ => tt) s
}.

End Scripted.

(** A development process with a descriptor and nothing at the migration
    path. *)
Definition without_file : Node :=
  {| env := {[ "DATABASE_URL" := direct ]};
     cwd := "/app"; dirname := "/app/scripts"; fs := fun _ => Missing |}.

(** A process where SUPABASE_DB_URL is set to the empty string. *)
Definition empty_first : Node :=
  {| env := {[ "SUPABASE_DB_URL" := ""; "DATABASE_URL" := direct ]};
     cwd := "/app"; dirname := "/app/scripts"; fs := on_disk (File script) |}.

(** A scripted client: the connection and the batch return, the catalog
    query throws, the end returns. *)
Definition catalog_query_fails : list (outcome (list Row)) :=
  [Ret []; Ret []; Throw (Js.ErrorObj "canceling statement due to statement timeout"); Ret []].

(** ** Proof tools *)

Lemma nonempty_Some v u : Js.nonempty v = Some u → v = Some u ∧ u ≠ "".
Proof.
  destruct v as [x|]; simpl; [|discriminate].
  destruct (String.eqb_spec x ""); [discriminate|].
  intros [= <-]. auto.
Qed.

Lemma released_spec t :
  released t = true →
  ∀ pre url post, t = pre ++ PgConnect url :: post → In PgEnd post.
Proof.
  intros Hrel pre. revert t Hrel.
  induction pre as [|e pre IH]; intros t Hrel url post ->; simpl in Hrel.
  - apply andb_prop in Hrel as [Hex _].
    apply existsb_exists in Hex as (x & Hin & Hx).
    destruct x; try discriminate. exact Hin.
  - refine (IH _ _ url post eq_refl).
    destruct e; try exact Hrel.
    apply andb_prop in Hrel as [_ Hrel]. exact Hrel.
Qed.

(** Runs one step of a handler: opens the monad and splits on what is
    scrutinised next. *)
Ltac open_act :=
  unfold env_or, getenv, header_get, existsSync, readFileSync, connect, query,
    client_end, log, emit, try_catch, bind, ret, throw in *; simpl in *.

Ltac split_next :=
  first
    [ match goal with
      | E : ?x = (_, _) |- context [?x] => rewrite E
      end
    | match goal with
      | |- context [match ?x with _ => _ end] =>
          lazymatch x with
          | context [match _ with _ => _ end] => fail
          | _ => destruct x eqn:?
          end
      | |- context [if ?x then _ else _] => destruct x eqn:?
      end ];
  simpl in *; try discriminate.

Section Gate.
Context {St : Type} `{PgClient St}.
Variable path_join : list string → string.

(** The gate as a function of the process and the request: what it
    answers, with the three reads it makes in production. *)
Lemma gate_production nd req (s : St) :
  env nd !! "NODE_ENV" = Some "production" →
  gate nd req s =
    (Ret (negb (Js.truthy (env nd !! "MIGRATION_SECRET"))
          || negb (bool_decide (headers req !! "authorization"
                                = Some (Js.bearer (env nd !! "MIGRATION_SECRET"))))),
     s, [EnvRead "NODE_ENV"; HeaderRead "authorization"; EnvRead "MIGRATION_SECRET"]).
Proof.
  intros Hprod. unfold gate. open_act. rewrite Hprod. reflexivity.
Qed.

Lemma gate_elsewhere nd req (s : St) :
  env nd !! "NODE_ENV" ≠ Some "production" →
  gate nd req s = (Ret false, s, [EnvRead "NODE_ENV"]).
Proof.
  intros Hdev. unfold gate. open_act.
  rewrite bool_decide_eq_false_2 by exact Hdev. reflexivity.
Qed.

Lemma POST_rejected nd req (s : St) t :
  gate nd req s = (Ret true, s, t) →
  POST path_join nd req s = (unauthorized, s, t).
Proof.
  intros Hg. unfold POST, POST_try, bind. rewrite Hg. simpl.
  rewrite app_nil_r. reflexivity.
Qed.

(** C3: in production, a request without the Authorization header, or
    with one that is not [Bearer] and the configured secret, is answered
    401 Unauthorized; up to then the handler has read [NODE_ENV], the
    header and [MIGRATION_SECRET] and nothing else: no descriptor name is
    read, the client is not called, the store is as it was. *)
Theorem C3_unauthorized_before_any_connection nd req (s : St) :
  env nd !! "NODE_ENV" = Some "production" →
  (headers req !! "authorization" = None ∨
   ∀ secret, env nd !! "MIGRATION_SECRET" = Some secret →
             headers req !! "authorization" ≠ Some ("Bearer " +:+ secret)) →
  ∃ t, POST path_join nd req s = (unauthorized, s, t) ∧
       status unauthorized = 401 ∧
       t = [EnvRead "NODE_ENV"; HeaderRead "authorization"; EnvRead "MIGRATION_SECRET"] ∧
       Forall (fun e => reads_descriptor e = false ∧ touches_store e = false) t.
Proof.
  intros Hprod Hbad. eexists. split; [|split; [reflexivity|split; [reflexivity|]]].
  - apply POST_rejected. rewrite gate_production by exact Hprod.
    repeat f_equal.
    destruct (env nd !! "MIGRATION_SECRET") as [secret|] eqn:Hsec; [|reflexivity].
    apply orb_true_iff. right. apply negb_true_iff, bool_decide_eq_false_2.
    destruct Hbad as [Hnone|Hne]; [rewrite Hnone; discriminate|].
    exact (Hne secret eq_refl).
  - repeat constructor.
Qed.

(** C9: in production with [MIGRATION_SECRET] unset (or empty), every
    request is answered 401 Unauthorized whatever its headers are, before
    any descriptor is read or the client is called. *)
Theorem C9_missing_secret_fails_closed nd req (s : St) :
  env nd !! "NODE_ENV" = Some "production" →
  Js.truthy (env nd !! "MIGRATION_SECRET") = false →
  POST path_join nd req s =
    (unauthorized, s,
     [EnvRead "NODE_ENV"; HeaderRead "authorization"; EnvRead "MIGRATION_SECRET"]).
Proof.
  intros Hprod Hsec. apply POST_rejected.
  rewrite gate_production by exact Hprod. rewrite Hsec. reflexivity.
Qed.

End Gate.

Section Client.
Context {St : Type} `{PgClient St}.

(** The client block of the route: it starts with the connection, ends
    the client on every path, and gives the success response or rethrows. *)
Lemma apply_with_client_runs url text (s : St) :
  ∃ r s' t,
    apply_with_client url text s = (r, s', PgConnect url :: t) ∧
    released (PgConnect url :: t) = true ∧
    store_calls t = t ∧
    Forall (fun e => ∀ u, e ≠ PgConnect u) t ∧
    match r with
    | Ret resp => ∃ tables, resp = applied tables
    | Throw _ => True
    end.
Proof.
  unfold apply_with_client. open_act.
  repeat split_next;
    do 3 eexists; (split; [reflexivity|]);
    (split; [reflexivity|]); (split; [reflexivity|]);
    (split; [repeat constructor; discriminate | eauto]).
Qed.

(** The same for the client block of the CLI, where the notes of the
    console come between the calls. *)
Lemma migrate_with_client_runs url text (s : St) :
  ∃ r s' t,
    migrate_with_client url text s = (r, s', PgConnect url :: t) ∧
    released (PgConnect url :: t) = true ∧
    Forall (fun e => ∀ u, e ≠ PgConnect u) t ∧
    match r with
    | Ret code => code = None ∨ code = Some 1
    | Throw _ => True
    end.
Proof.
  unfold migrate_with_client. open_act.
  repeat split_next;
    do 3 eexists; (split; [reflexivity|]);
    (split; [reflexivity|]);
    (split; [repeat constructor; discriminate | eauto]).
Qed.

(** On the same connection string and script the two client blocks make
    the same calls, leave the same store, and succeed together. *)
Lemma client_blocks_agree url text (s : St) :
  ∃ r1 t1 r2 t2 s',
    apply_with_client url text s = (r1, s', t1) ∧
    migrate_with_client url text s = (r2, s', t2) ∧
    store_calls t1 = store_calls t2 ∧
    ((∃ tables, r1 = Ret (applied tables)) ∧ r2 = Ret None ∨
     (∃ e, r1 = Throw e) ∧ (r2 = Ret (Some 1) ∨ ∃ e', r2 = Throw e')).
Proof.
  unfold apply_with_client, migrate_with_client. open_act.
  repeat split_next; simplify_eq;
    do 5 eexists; (split; [reflexivity|]); (split; [reflexivity|]);
    (split; [reflexivity|]); eauto 7.
Qed.

End Client.

Lemma quiet_store_calls t : quiet t → store_calls t = [].
Proof.
  induction 1 as [|e t He _ IH]; [reflexivity|].
  unfold store_calls in *. simpl. rewrite He. exact IH.
Qed.

Lemma quiet_no_connect t url : quiet t → ¬ In (PgConnect url) t.
Proof.
  intros Hq Hin. unfold quiet in Hq. rewrite Forall_forall in Hq.
  apply list_elem_of_In in Hin. specialize (Hq _ Hin). discriminate.
Qed.

Lemma quiet_released t : quiet t → released t = true.
Proof.
  induction 1 as [|e t He _ IH]; [reflexivity|].
  destruct e; try discriminate; exact IH.
Qed.

Lemma released_app_quiet t0 t : quiet t0 → released (t0 ++ t) = released t.
Proof.
  induction 1 as [|e t0 He _ IH]; [reflexivity|].
  destruct e; try discriminate; exact IH.
Qed.

Lemma released_app_r t t1 : released t = true → quiet t1 → released (t ++ t1) = true.
Proof.
  intros Hrel Hq. induction t as [|e t IH]; simpl.
  - apply quiet_released, Hq.
  - destruct e; simpl in *; auto.
    apply andb_prop in Hrel as [Hex Hrel].
    rewrite IH by exact Hrel. rewrite existsb_app, Hex. reflexivity.
Qed.

Lemma store_calls_app t1 t2 : store_calls (t1 ++ t2) = store_calls t1 ++ store_calls t2.
Proof. unfold store_calls. induction t1 as [|e t1 IH]; simpl; [reflexivity|].
  destruct (touches_store e); simpl; rewrite IH; reflexivity. Qed.

Ltac quiet_trace := unfold quiet; repeat constructor.

Lemma bind_ret {St A B} (m : act St A) (k : A → act St B) s a s1 t1 :
  m s = (Ret a, s1, t1) →
  bind m k s = (let '(r, s2, t2) := k a s1 in (r, s2, t1 ++ t2)).
Proof. intros Hm. unfold bind. rewrite Hm. reflexivity. Qed.

Section Cases.
Context {St : Type} `{PgClient St}.
Variable path_join : list string → string.

(** The descriptor is the first non-empty value of the four names; reading
    it leaves the store alone. *)
Lemma databaseUrl_runs nd :
  ∃ v t, (∀ s : St, databaseUrl nd s = (Ret v, s, t)) ∧
         Js.nonempty v = first_non_empty nd ∧ quiet t.
Proof.
  unfold databaseUrl, first_non_empty, descriptor_names. open_act. unfold Js.truthy.
  destruct (Js.nonempty (env nd !! "SUPABASE_DB_URL")) eqn:E1;
    [do 2 eexists; split; [reflexivity|split; [exact E1|quiet_trace]]|].
  destruct (Js.nonempty (env nd !! "DATABASE_URL")) eqn:E2;
    [do 2 eexists; split; [reflexivity|split; [exact E2|quiet_trace]]|].
  destruct (Js.nonempty (env nd !! "POSTGRES_URL")) eqn:E3;
    [do 2 eexists; split; [reflexivity|split; [exact E3|quiet_trace]]|].
  do 2 eexists; split; [reflexivity|split; [|quiet_trace]].
  destruct (Js.nonempty (env nd !! "POSTGRES_PRISMA_URL")); reflexivity.
Qed.

Lemma gate_admitted nd req (s : St) :
  admitted nd req → ∃ t, gate nd req s = (Ret false, s, t) ∧ quiet t.
Proof.
  intros Hadm.
  destruct (decide (env nd !! "NODE_ENV" = Some "production")) as [Hprod|Hdev].
  - destruct Hadm as [Hdev|(secret & Hsec & Hne & Hhdr)]; [contradiction|].
    exists [EnvRead "NODE_ENV"; HeaderRead "authorization"; EnvRead "MIGRATION_SECRET"].
    rewrite gate_production by exact Hprod. split; [|quiet_trace].
    rewrite Hsec, Hhdr. simpl. unfold Js.truthy, Js.nonempty.
    destruct (String.eqb_spec secret ""); [contradiction|].
    rewrite bool_decide_eq_true_2 by reflexivity. reflexivity.
  - exists [EnvRead "NODE_ENV"]. rewrite gate_elsewhere by exact Hdev.
    split; [reflexivity|quiet_trace].
Qed.

(** What [POST] does for a request that passes the gate, by the
    descriptor and the state of the migration file. *)
Lemma POST_admitted_cases nd req (s : St) :
  admitted nd req →
  ∃ t0, quiet t0 ∧
    match first_non_empty nd with
    | None => POST path_join nd req s = (config_missing, s, t0)
    | Some url =>
        match fs nd (path_join [cwd nd; "migrations"; migration_name]) with
        | Missing => POST path_join nd req s = (not_found, s, t0)
        | Unreadable e => POST path_join nd req s = (apply_failed e, s, t0)
        | File text =>
            ∃ r s' t,
              apply_with_client url text s = (r, s', t) ∧
              POST path_join nd req s =
                (match r with Ret resp => resp | Throw e => apply_failed e end,
                 s', t0 ++ t)
        end
    end.
Proof.
  intros Hadm.
  destruct (gate_admitted nd req s Hadm) as (tg & Hg & Hqg).
  destruct (databaseUrl_runs nd) as (v & tu & Hu & Hv & Hqu).
  set (p := path_join [cwd nd; "migrations"; migration_name]).
  assert (Hq0 : ∀ t, quiet t → quiet (tg ++ tu ++ t)).
  { intros t Ht. apply Forall_app; split; [exact Hqg|].
    apply Forall_app; split; [exact Hqu|exact Ht]. }
  unfold POST, POST_try.
  rewrite (bind_ret _ _ _ _ _ _ Hg). cbn iota beta.
  rewrite (bind_ret _ _ _ _ _ _ (Hu s)). cbn iota beta. rewrite Hv.
  destruct (first_non_empty nd) as [url|].
  - fold p. unfold existsSync, readFileSync.
    destruct (fs nd p) as [|text|e].
    + exists (tg ++ tu ++ [FsExists p]). split; [apply Hq0; quiet_trace|reflexivity].
    + destruct (apply_with_client url text s) as [[r s'] t] eqn:Hrun.
      exists (tg ++ tu ++ [FsExists p; FsRead p]). split; [apply Hq0; quiet_trace|].
      exists r, s', t. split; [reflexivity|].
      unfold bind, emit, ret. cbn [negb]. cbn iota beta. rewrite Hrun.
      destruct r; simpl; rewrite <- !app_assoc; reflexivity.
    + exists (tg ++ tu ++ [FsExists p; FsRead p]).
      split; [apply Hq0; quiet_trace|reflexivity].
  - exists (tg ++ tu ++ []). split; [apply Hq0; quiet_trace|reflexivity].
Qed.

Lemma supabaseUrl_runs nd :
  ∃ v t, (∀ s : St, env_or nd "NEXT_PUBLIC_SUPABASE_URL" (getenv nd "SUPABASE_URL") s
                    = (Ret v, s, t)) ∧ quiet t.
Proof.
  open_act. destruct (Js.truthy (env nd !! "NEXT_PUBLIC_SUPABASE_URL"));
    do 2 eexists; (split; [reflexivity|quiet_trace]).
Qed.

Lemma optional_note (b : bool) (n : cli_note) :
  ∃ t, (∀ s : St, (if b then log n else ret tt) s = (Ret tt, s, t)) ∧ quiet t.
Proof. destruct b; eexists; (split; [reflexivity|quiet_trace]). Qed.

(** What the CLI does, by the descriptor and the state of the migration
    file. *)
Lemma migrate_cli_cases nd (s : St) :
  ∃ t0, quiet t0 ∧
    match first_non_empty nd with
    | None => migrate_cli path_join nd s = (1, s, t0) ∧ In (Console NoteMissingUrl) t0
    | Some url =>
        match fs nd (path_join [dirname nd; ".."; "migrations"; migration_name]) with
        | Missing => migrate_cli path_join nd s = (1, s, t0)
        | Unreadable e => migrate_cli path_join nd s = (1, s, t0)
        | File text =>
            ∃ r s' t t1,
              migrate_with_client (direct_url url) text s = (r, s', t) ∧
              quiet t1 ∧
              migrate_cli path_join nd s =
                (match r with Ret (Some code) => code | Ret None => 0 | Throw _ => 1 end,
                 s', t0 ++ t ++ t1)
        end
    end.
Proof.
  destruct (databaseUrl_runs nd) as (v & tu & Hu & Hv & Hqu).
  destruct (supabaseUrl_runs nd) as (w & tw & Hw & Hqw).
  set (p := path_join [dirname nd; ".."; "migrations"; migration_name]).
  assert (Hq0 : ∀ t, quiet t → quiet ([Console NoteBanner] ++ tu ++ tw ++ t)).
  { intros t Ht. apply Forall_app; split; [quiet_trace|].
    apply Forall_app; split; [exact Hqu|]. apply Forall_app; split; [exact Hqw|exact Ht]. }
  unfold migrate_cli, applyMigration.
  rewrite (bind_ret (log NoteBanner) _ s tt s [Console NoteBanner] eq_refl). cbn iota beta.
  rewrite (bind_ret _ _ _ _ _ _ (Hu s)). cbn iota beta.
  rewrite (bind_ret _ _ _ _ _ _ (Hw s)). cbn iota beta. rewrite Hv.
  destruct (first_non_empty nd) as [url|].
  - fold p. unfold existsSync, readFileSync.
    destruct (fs nd p) as [|text|e].
    + exists ([Console NoteBanner] ++ tu ++ tw ++ [FsExists p; Console (NoteFileMissing p)]).
      split; [apply Hq0; quiet_trace|reflexivity].
    + destruct (migrate_with_client (direct_url url) text s) as [[r s'] t] eqn:Hrun.
      exists ([Console NoteBanner] ++ tu ++ tw ++
              [FsExists p; FsRead p; Console NoteConnecting] ++
              match Js.nonempty w with
              | Some u => [Console (NoteSupabaseUrl u)]
              | None => []
              end ++
              (if Js.includes "pooler.supabase.com" url
               then [Console NotePoolerDetected] else []) ++
              [Console NoteConnectionUrl]).
      split.
      { apply Hq0. destruct (Js.nonempty w);
          destruct (Js.includes "pooler.supabase.com" url); quiet_trace. }
      exists r, s', t, (match r with Throw _ => [Console NoteCritical] | _ => [] end).
      split; [reflexivity|]. split; [destruct r; quiet_trace|].
      unfold bind, log, emit, ret.
      destruct (Js.nonempty w) as [u|];
        destruct (Js.includes "pooler.supabase.com" url);
        cbn [negb]; cbn iota beta; rewrite Hrun;
        destruct r as [[code|]|e];
        cbn [app]; rewrite <- ?app_assoc; cbn [app]; rewrite ?app_nil_r; reflexivity.
    + exists ([Console NoteBanner] ++ tu ++ tw ++ [FsExists p; FsRead p; Console NoteCritical]).
      split; [apply Hq0; quiet_trace|].
      unfold bind, emit, throw, ret. cbn [negb]. cbn iota beta.
      rewrite <- !app_assoc. reflexivity.
  - destruct (optional_note (Js.truthy w) NoteDashboardAlternative) as (tn & Hn & Hqn).
    exists ([Console NoteBanner] ++ tu ++ tw ++ Console NoteMissingUrl :: tn).
    split; [apply Hq0; constructor; [reflexivity|exact Hqn]|].
    split.
    + rewrite (bind_ret (log NoteMissingUrl) _ s tt s [Console NoteMissingUrl] eq_refl).
      cbn iota beta. rewrite (bind_ret _ _ _ _ _ _ (Hn s)). cbn iota beta.
      unfold ret. rewrite app_nil_r. reflexivity.
    + rewrite !in_app_iff. right. right. right. left. reflexivity.
Qed.

End Cases.

Lemma first_non_empty_None nd :
  (∀ name, In name descriptor_names → Js.truthy (env nd !! name) = false) →
  first_non_empty nd = None.
Proof.
  intros Hall. unfold first_non_empty, descriptor_names. simpl.
  assert (Hn : ∀ name, In name descriptor_names → Js.nonempty (env nd !! name) = None).
  { intros name Hin. specialize (Hall name Hin). unfold Js.truthy in Hall.
    destruct (Js.nonempty (env nd !! name)); [discriminate|reflexivity]. }
  rewrite !Hn by (unfold descriptor_names; simpl; auto). reflexivity.
Qed.

Lemma direct_url_plain url :
  Js.includes "pooler.supabase.com" url = false → direct_url url = url.
Proof. intros Hno. unfold direct_url. rewrite Hno. reflexivity. Qed.

Lemma route_response_one_marker r :
  route_response r →
  is_success r ∧ ¬ is_failure r ∨ is_failure r ∧ ¬ is_success r.
Proof.
  unfold is_success, is_failure.
  destruct 1; simpl.
  - right. split; [right; eauto|discriminate].
  - right. split; [left; reflexivity|discriminate].
  - right. split; [right; eauto|discriminate].
  - left. split; [reflexivity|]. intros [?|[? ?]]; discriminate.
  - right. split; [left; reflexivity|discriminate].
Qed.

Section Runs.
Context {St : Type} `{PgClient St}.
Variable path_join : list string → string.

(** A request is turned away or passes the gate. *)
Lemma gate_runs nd req (s : St) :
  ∃ b t, gate nd req s = (Ret b, s, t) ∧ quiet t ∧ (b = false → admitted nd req).
Proof.
  destruct (decide (env nd !! "NODE_ENV" = Some "production")) as [Hprod|Hdev].
  - do 2 eexists. rewrite gate_production by exact Hprod.
    split; [reflexivity|]. split; [quiet_trace|].
    intros Hb. apply orb_false_iff in Hb as [Hsec Hhdr].
    apply negb_false_iff in Hsec. apply negb_false_iff, bool_decide_eq_true_1 in Hhdr.
    unfold Js.truthy in Hsec.
    destruct (Js.nonempty (env nd !! "MIGRATION_SECRET")) as [secret|] eqn:Hne;
      [|discriminate].
    apply nonempty_Some in Hne as [Hsome Hne].
    right. exists secret. rewrite Hsome in Hhdr. auto.
  - do 2 eexists. rewrite gate_elsewhere by exact Hdev.
    split; [reflexivity|]. split; [quiet_trace|]. intros _. left. exact Hdev.
Qed.

(** Every run of [POST] returns one of its five bodies, and has ended the
    client if it connected it. *)
Lemma POST_runs nd req (s : St) :
  ∃ r s' t, POST path_join nd req s = (r, s', t) ∧
            route_response r ∧ released t = true.
Proof.
  destruct (gate_runs nd req s) as ([|] & tg & Hg & Hqg & Hadm).
  - exists unauthorized, s, tg. split; [apply POST_rejected, Hg|].
    split; [constructor|apply quiet_released, Hqg].
  - destruct (POST_admitted_cases path_join nd req s (Hadm eq_refl)) as (t0 & Hq0 & Hcase).
    destruct (first_non_empty nd) as [url|].
    + destruct (fs nd (path_join [cwd nd; "migrations"; migration_name])) as [|text|e].
      * do 3 eexists. split; [exact Hcase|]. split; [constructor|apply quiet_released, Hq0].
      * destruct Hcase as (r & s' & t & Hrun & Hpost).
        destruct (apply_with_client_runs url text s) as (r' & s'' & t' & Hrun' & Hrel & _ & _ & Hr).
        rewrite Hrun in Hrun'. injection Hrun' as Er Es Et. subst r' s'' t.
        do 3 eexists. split; [exact Hpost|]. split.
        { destruct r as [resp|e]; [destruct Hr as [tables ->]|]; constructor. }
        rewrite released_app_quiet by exact Hq0. exact Hrel.
      * do 3 eexists. split; [exact Hcase|]. split; [constructor|apply quiet_released, Hq0].
    + do 3 eexists. split; [exact Hcase|]. split; [constructor|apply quiet_released, Hq0].
Qed.

(** Every run of the CLI has ended the client if it connected it. *)
Lemma migrate_cli_runs nd (s : St) :
  ∃ code s' t, migrate_cli path_join nd s = (code, s', t) ∧
               (code = 0 ∨ code = 1) ∧ released t = true.
Proof.
  destruct (migrate_cli_cases path_join nd s) as (t0 & Hq0 & Hcase).
  destruct (first_non_empty nd) as [url|].
  - destruct (fs nd (path_join [dirname nd; ".."; "migrations"; migration_name]))
      as [|text|e].
    + do 3 eexists. split; [exact Hcase|]. split; [auto|apply quiet_released, Hq0].
    + destruct Hcase as (r & s' & t & t1 & Hrun & Hq1 & Hcli).
      destruct (migrate_with_client_runs (direct_url url) text s)
        as (r' & s'' & t' & Hrun' & Hrel & _ & Hr).
      rewrite Hrun in Hrun'. injection Hrun' as Er Es Et. subst r' s'' t.
      do 3 eexists. split; [exact Hcli|]. split.
      { destruct r as [code|e]; [destruct Hr as [-> | ->]|]; auto. }
      rewrite released_app_quiet by exact Hq0.
      apply released_app_r; [exact Hrel|exact Hq1].
    + do 3 eexists. split; [exact Hcase|]. split; [auto|apply quiet_released, Hq0].
  - destruct Hcase as [Hcase _].
    do 3 eexists. split; [exact Hcase|]. split; [auto|apply quiet_released, Hq0].
Qed.

End Runs.

(** ** The claims on the two handlers and the CLI *)

Section Claims.
Context {St : Type} `{PgClient St}.
Variable path_join : list string → string.

Abbreviation route_file nd := (path_join [cwd nd; "migrations"; migration_name]).
Abbreviation cli_file nd := (path_join [dirname nd; ".."; "migrations"; migration_name]).

(** C4, as amended.  When none of SUPABASE_DB_URL, DATABASE_URL,
    POSTGRES_URL, POSTGRES_PRISMA_URL is non-empty: [POST], for a request
    that passes the production gate (or outside production), answers the
    400 body with [success: false] and the two instructions; the CLI, which
    has no gate, prints how to obtain the descriptor and exits with 1;
    neither calls the client, and the store is as it was.  When some name
    is non-empty, the first non-empty one in that order is the descriptor:
    with the migration file there, [POST] (past the gate) connects with it,
    the CLI connects with its direct-host form, and neither connects with
    anything else. *)
Theorem C4_descriptor_resolution nd req (s : St) :
  ((∀ name, In name descriptor_names → Js.truthy (env nd !! name) = false) →
   (admitted nd req →
    ∃ t, POST path_join nd req s = (config_missing, s, t) ∧ quiet t) ∧
   status config_missing = 400 ∧ success config_missing = Some false ∧
   is_Some (instructions config_missing) ∧
   (∃ t, migrate_cli path_join nd s = (1, s, t) ∧ quiet t ∧
         In (Console NoteMissingUrl) t)) ∧
  (∀ url, first_non_empty nd = Some url →
     (admitted nd req →
      (∀ r s' t u, POST path_join nd req s = (r, s', t) → In (PgConnect u) t → u = url) ∧
      (∀ text, fs nd (route_file nd) = File text →
         ∃ r s' t0 t1, POST path_join nd req s = (r, s', t0 ++ PgConnect url :: t1) ∧
                       quiet t0)) ∧
     (∀ c s' t u, migrate_cli path_join nd s = (c, s', t) → In (PgConnect u) t →
                  u = direct_url url) ∧
     (∀ text, fs nd (cli_file nd) = File text →
        ∃ c s' t0 t1,
          migrate_cli path_join nd s = (c, s', t0 ++ PgConnect (direct_url url) :: t1) ∧
          quiet t0)).
Proof.
  split.
  - intros Hnone. apply first_non_empty_None in Hnone.
    destruct (migrate_cli_cases path_join nd s) as (t1 & Hq1 & Hcli).
    rewrite Hnone in Hcli. destruct Hcli as [Hcli Hnote].
    split; [|repeat split; eauto].
    intros Hadm.
    destruct (POST_admitted_cases path_join nd req s Hadm) as (t0 & Hq0 & Hpost).
    rewrite Hnone in Hpost. eauto.
  - intros url Hurl.
    destruct (migrate_cli_cases path_join nd s) as (t1 & Hq1 & Hcli).
    rewrite Hurl in Hcli. split; [|split].
    + intros Hadm.
      destruct (POST_admitted_cases path_join nd req s Hadm) as (t0 & Hq0 & Hpost).
      rewrite Hurl in Hpost. split.
      * intros r s' t u Hrun Hin.
        destruct (fs nd (route_file nd)) as [|text|e];
          try (rewrite Hpost in Hrun; injection Hrun as <- <- <-;
               exfalso; exact (quiet_no_connect _ _ Hq0 Hin)).
        destruct Hpost as (r1 & s1 & t2 & Hblock & Hpost).
        rewrite Hpost in Hrun. injection Hrun as <- <- <-.
        destruct (apply_with_client_runs url text s)
          as (r' & s'' & t' & Hrun' & _ & _ & Hnc & _).
        rewrite Hblock in Hrun'. injection Hrun' as Er Es Et. subst r' s'' t2.
        apply in_app_iff in Hin as [Hin|[Hin|Hin]].
        -- exfalso. exact (quiet_no_connect _ _ Hq0 Hin).
        -- injection Hin as ->. reflexivity.
        -- rewrite Forall_forall in Hnc. apply list_elem_of_In in Hin.
           exfalso. exact (Hnc _ Hin u eq_refl).
      * intros text Hfile. rewrite Hfile in Hpost.
        destruct Hpost as (r1 & s1 & t2 & Hblock & Hpost).
        destruct (apply_with_client_runs url text s)
          as (r' & s'' & t' & Hrun' & _).
        rewrite Hblock in Hrun'. injection Hrun' as Er Es Et. subst r' s'' t2.
        eauto 6.
    + intros c s' t u Hrun Hin.
      destruct (fs nd (cli_file nd)) as [|text|e];
        try (rewrite Hcli in Hrun; injection Hrun as <- <- <-;
             exfalso; exact (quiet_no_connect _ _ Hq1 Hin)).
      destruct Hcli as (r1 & s1 & t2 & t3 & Hblock & Hq3 & Hcli).
      rewrite Hcli in Hrun. injection Hrun as <- <- <-.
      destruct (migrate_with_client_runs (direct_url url) text s)
        as (r' & s'' & t' & Hrun' & _ & Hnc & _).
      rewrite Hblock in Hrun'. injection Hrun' as Er Es Et. subst r' s'' t2.
      apply in_app_iff in Hin as [Hin|Hin];
        [exfalso; exact (quiet_no_connect _ _ Hq1 Hin)|].
      apply in_app_iff in Hin as [[Hin|Hin]|Hin].
      * injection Hin as ->. reflexivity.
      * rewrite Forall_forall in Hnc. apply list_elem_of_In in Hin.
        exfalso. exact (Hnc _ Hin u eq_refl).
      * exfalso. exact (quiet_no_connect _ _ Hq3 Hin).
    + intros text Hfile. rewrite Hfile in Hcli.
      destruct Hcli as (r1 & s1 & t2 & t3 & Hblock & Hq3 & Hcli).
      destruct (migrate_with_client_runs (direct_url url) text s)
        as (r' & s'' & t' & Hrun' & _).
      rewrite Hblock in Hrun'. injection Hrun' as Er Es Et. subst r' s'' t2.
      exists (match r1 with Ret (Some code) => code | Ret None => 0 | Throw _ => 1 end),
             s1, t1, (t' ++ t3).
      split; [exact Hcli|exact Hq1].
Qed.

(** C5: in every run of [POST] and in every run of the CLI, each
    [client.connect()] is followed by a [client.end()] before the run is
    over, whatever the connection, the script, the catalog query and
    [end] itself do (return or throw). *)
Theorem C5_client_ended_on_every_path nd req (s : St) :
  (∀ r s' t, POST path_join nd req s = (r, s', t) →
     ∀ pre url post, t = pre ++ PgConnect url :: post → In PgEnd post) ∧
  (∀ code s' t, migrate_cli path_join nd s = (code, s', t) →
     ∀ pre url post, t = pre ++ PgConnect url :: post → In PgEnd post).
Proof.
  split.
  - intros r s' t Hrun.
    destruct (POST_runs path_join nd req s) as (r' & s'' & t' & Hrun' & _ & Hrel).
    rewrite Hrun in Hrun'. injection Hrun' as _ _ <-.
    exact (released_spec t Hrel).
  - intros code s' t Hrun.
    destruct (migrate_cli_runs path_join nd s) as (c' & s'' & t' & Hrun' & _ & Hrel).
    rewrite Hrun in Hrun'. injection Hrun' as _ _ <-.
    exact (released_spec t Hrel).
Qed.

(** C6: with the migration file present and not empty, [POST] returns
    exactly one body for every request, process and store, and that body
    carries the success marker ([success: true]) or a failure marker
    ([success: false] or an [error]), never both and never neither. *)
Theorem C6_exactly_one_outcome nd req (s : St) text :
  fs nd (route_file nd) = File text →
  text ≠ "" →
  ∃ r s' t, POST path_join nd req s = (r, s', t) ∧
    (is_success r ∧ ¬ is_failure r ∨ is_failure r ∧ ¬ is_success r).
Proof.
  intros _ _.
  destruct (POST_runs path_join nd req s) as (r & s' & t & Hrun & Hshape & _).
  exists r, s', t. split; [exact Hrun|]. apply route_response_one_marker, Hshape.
Qed.

(** C2, as amended: when the connection or the script fails with an
    error, [POST] answers status 500 with [success: false] and [error] set
    to the message of the error that reaches the outer [catch] (the error
    of the connection or of the script, or the one of [client.end()] when
    that throws as well), whichever call failed; the body carries the
    explanatory [message] exactly when that error message contains
    "already exists".  So an already-exists failure differs from the
    others by that field only, it is still a 500 with [success: false],
    and a connection error and another SQL error with the same message
    give the same body. *)
Theorem C2_failure_body nd req (s s1 s2 : St) url text e ended :
  admitted nd req →
  first_non_empty nd = Some url →
  fs nd (route_file nd) = File text →
  (pg_connect url s = (Throw e, s1) ∨
   ∃ s0, pg_connect url s = (Ret tt, s0) ∧ pg_query (Batch text) s0 = (Throw e, s1)) →
  pg_end s1 = (ended, s2) →
  let caught := match ended with Ret _ => e | Throw e' => e' end in
  (∃ t, POST path_join nd req s = (apply_failed caught, s2, t)) ∧
  status (apply_failed caught) = 500 ∧
  success (apply_failed caught) = Some false ∧
  error (apply_failed caught) = Some (Js.error_message caught) ∧
  (message (apply_failed caught) = Some already_exists_note ↔
     Js.includes "already exists" (Js.error_message caught) = true) ∧
  (message (apply_failed caught) = None ↔
     Js.includes "already exists" (Js.error_message caught) = false).
Proof.
  intros Hadm Hurl Hfile Hfail Hend caught.
  split; [|split; [reflexivity|split; [reflexivity|split; [reflexivity|]]]].
  - destruct (POST_admitted_cases path_join nd req s Hadm) as (t0 & _ & Hpost).
    rewrite Hurl, Hfile in Hpost. destruct Hpost as (r & s' & t & Hblock & Hpost).
    assert (Hthrow : ∃ t', apply_with_client url text s = (Throw caught, s2, t')).
    { unfold apply_with_client. open_act. subst caught.
      destruct Hfail as [Hc|(s0 & Hc & Hq)].
      - rewrite Hc. simpl. rewrite Hend. destruct ended; eauto.
      - rewrite Hc. simpl. rewrite Hq. simpl. rewrite Hend. destruct ended; eauto. }
    destruct Hthrow as (t' & Hthrow). rewrite Hthrow in Hblock.
    injection Hblock as <- <- <-. eauto.
  - unfold apply_failed. simpl.
    destruct (Js.includes "already exists" (Js.error_message caught)); split;
      (split; [discriminate || reflexivity | discriminate || reflexivity]).
Qed.

(** C7, as amended: for a request that passes the gate, when the route's
    and the script's paths name the same migration file and the descriptor
    does not contain "pooler.supabase.com", the route and the CLI resolve
    the same descriptor, make the same calls of the client in the same
    order (connect to the same target, the same batch, the same catalog
    query, the same ends), leave the same store, and succeed or fail
    together: a success body goes with exit code 0, a failure body with
    exit code 1. *)
Theorem C7_route_and_cli_agree nd req (s : St) :
  admitted nd req →
  route_file nd = cli_file nd →
  (∀ url, first_non_empty nd = Some url →
          Js.includes "pooler.supabase.com" url = false) →
  ∃ r code s' t1 t2,
    POST path_join nd req s = (r, s', t1) ∧
    migrate_cli path_join nd s = (code, s', t2) ∧
    store_calls t1 = store_calls t2 ∧
    (is_success r ∧ code = 0 ∨ is_failure r ∧ code = 1).
Proof.
  intros Hadm Hpath Hplain.
  destruct (POST_admitted_cases path_join nd req s Hadm) as (t0 & Hq0 & Hpost).
  destruct (migrate_cli_cases path_join nd s) as (t1 & Hq1 & Hcli).
  rewrite <- Hpath in Hcli.
  destruct (first_non_empty nd) as [url|].
  - rewrite (direct_url_plain url (Hplain url eq_refl)) in Hcli.
    destruct (fs nd (route_file nd)) as [|text|e].
    + exists not_found, 1, s, t0, t1. repeat split; try assumption.
      * rewrite !quiet_store_calls by assumption. reflexivity.
      * right. split; [right; simpl; eauto|reflexivity].
    + destruct Hpost as (r1 & s1 & tr & Hblock1 & Hpost).
      destruct Hcli as (r2 & s2 & tc & tz & Hblock2 & Hqz & Hcli).
      destruct (client_blocks_agree url text s)
        as (r1' & tr' & r2' & tc' & s' & H1 & H2 & Hcalls & Hres).
      rewrite Hblock1 in H1. injection H1 as E1 E2 E3. subst r1' s' tr'.
      rewrite Hblock2 in H2. injection H2 as E1 E2 E3. subst r2' s2 tc'.
      do 5 eexists. split; [exact Hpost|]. split; [exact Hcli|]. split.
      * rewrite !store_calls_app, (quiet_store_calls t0), (quiet_store_calls t1),
          (quiet_store_calls tz) by assumption.
        rewrite app_nil_r. simpl. exact Hcalls.
      * destruct Hres as [[[tables ->] ->]|[[e ->] [->|[e' ->]]]].
        -- left. split; reflexivity.
        -- right. split; [left; reflexivity|reflexivity].
        -- right. split; [left; reflexivity|reflexivity].
    + exists (apply_failed e), 1, s, t0, t1. repeat split; try assumption.
      * rewrite !quiet_store_calls by assumption. reflexivity.
      * right. split; [left; reflexivity|reflexivity].
  - destruct Hcli as [Hcli _].
    exists config_missing, 1, s, t0, t1. repeat split; try assumption.
    + rewrite !quiet_store_calls by assumption. reflexivity.
    + right. split; [left; reflexivity|reflexivity].
Qed.

(** C8, as amended: [GET] answers 200 with the full text of the migration
    file exactly when the file is there and reads, 404 "Migration file not
    found" exactly when nothing is at the path, and 500 with the error's
    message when something is at the path and reading it throws.  In every
    case it only looks at that one path: [existsSync] of it, then, when
    something is there, [readFileSync] of it, and nothing else; no
    environment or header is read, the client is not called, the store is
    as it was. *)
Theorem C8_GET_reads_the_script nd (s : St) :
  ∃ r t, GET path_join nd s = (r, s, t) ∧
    t = FsExists (route_file nd)
        :: match fs nd (route_file nd) with
           | Missing => []
           | _ => [FsRead (route_file nd)]
           end ∧
    Forall (fun e => e = FsExists (route_file nd) ∨ e = FsRead (route_file nd)) t ∧
    (∀ text, fs nd (route_file nd) = File text ↔ r = script_text text) ∧
    (fs nd (route_file nd) = Missing ↔ r = not_found) ∧
    (∀ e, fs nd (route_file nd) = Unreadable e → r = read_failed e).
Proof.
  unfold GET, GET_try. open_act.
  destruct (fs nd (route_file nd)) as [|text|e]; simpl;
    do 2 eexists; (split; [reflexivity|]); (split; [reflexivity|]);
    (split; [repeat first [apply List.Forall_nil | apply List.Forall_cons; [solve [left; reflexivity | right; reflexivity]|]]|]);
    repeat split; try discriminate; try congruence.
  intros Heq. apply (f_equal sql) in Heq. simpl in Heq. congruence.
Qed.

(** C10, as amended: [GET] checks neither the deployment environment nor
    any credential: it takes no request, reads no variable of the
    environment and no header (it only looks at the migration path), and
    its answer is the same under every environment.  So whenever the file
    is there and reads it answers 200 with the full text, in production as
    elsewhere, with or without MIGRATION_SECRET; when the file is there and
    reading it throws it answers 500 without the text, again whatever the
    environment.  The gate is on [POST] alone: the request that [POST]
    turns away with 401 is answered by [GET] all the same. *)
Theorem C10_GET_is_not_gated nd (s : St) :
  (∀ env', GET path_join {| env := env'; cwd := cwd nd; dirname := dirname nd; fs := fs nd |} s
           = GET path_join nd s) ∧
  Forall (fun e => e = FsExists (route_file nd) ∨ e = FsRead (route_file nd))
         (snd (GET path_join nd s)) ∧
  Forall (fun e => match e with EnvRead _ | HeaderRead _ => False | _ => True end)
         (snd (GET path_join nd s)) ∧
  (∀ text, fs nd (route_file nd) = File text →
     GET path_join nd s
       = (script_text text, s, [FsExists (route_file nd); FsRead (route_file nd)]) ∧
     sql (script_text text) = Some text ∧
     status (script_text text) = 200) ∧
  (∀ e, fs nd (route_file nd) = Unreadable e →
     GET path_join nd s
       = (read_failed e, s, [FsExists (route_file nd); FsRead (route_file nd)]) ∧
     sql (read_failed e) = None ∧
     status (read_failed e) = 500) ∧
  (∀ req, ¬ admitted nd req →
     ∃ t, POST path_join nd req s = (unauthorized, s, t) ∧ quiet t).
Proof.
  split; [intros env'; reflexivity|].
  assert (Hpost : ∀ req, ¬ admitted nd req →
            ∃ t, POST path_join nd req s = (unauthorized, s, t) ∧ quiet t).
  { intros req Hno. destruct (gate_runs nd req s) as ([|] & tg & Hg & Hq & Hadm).
    - exists tg. split; [apply POST_rejected, Hg|exact Hq].
    - exfalso. exact (Hno (Hadm eq_refl)). }
  unfold GET, GET_try. open_act.
  destruct (fs nd (route_file nd)) as [|text|e]; simpl;
    (split; [repeat first [apply List.Forall_nil | apply List.Forall_cons; [solve [left; reflexivity | right; reflexivity]|]]|]);
    (split; [repeat constructor|]).
  - split; [intros text' Heq; discriminate|].
    split; [intros e' Heq; discriminate|exact Hpost].
  - split; [intros text' [= <-]; repeat split|].
    split; [intros e' Heq; discriminate|exact Hpost].
  - split; [intros text' Heq; discriminate|].
    split; [intros e' [= <-]; repeat split|exact Hpost].
Qed.

End Claims.

(** ** The catalog query on the model of the store *)

Lemma like_any s : Pg.like "%" s = true.
Proof.
  induction s as [|c s IH]; [reflexivity|].
  simpl in *. exact IH.
Qed.

(** What [LIKE 'telegram_%'] accepts: "telegram", then one character of any
    kind, then anything. *)
Lemma like_telegram name :
  Pg.like "telegram_%" name = true ↔
  ∃ c rest, name = "telegram" +:+ String c rest.
Proof.
  split.
  - intros Hlike.
    do 8 (destruct name as [|? name]; [discriminate|];
          cbn [Pg.like] in Hlike; apply andb_prop in Hlike as [Hc Hlike];
          apply Ascii.eqb_eq in Hc; subst).
    destruct name as [|c rest]; [discriminate|].
    exists c, rest. reflexivity.
  - intros (c & rest & ->). exact (like_any rest).
Qed.

(** [ORDER BY] gives the names in ascending order. *)
Lemma insert_sorted_sorted x l :
  Sorted (fun a b => String.leb a b = true) l →
  Sorted (fun a b => String.leb a b = true) (Pg.insert_sorted x l).
Proof.
  induction l as [|a l IH]; simpl; intros Hs.
  - repeat constructor.
  - destruct (String.leb x a) eqn:Hxa.
    + constructor; [exact Hs|]. constructor. exact Hxa.
    + assert (Hax : String.leb a x = true).
      { destruct (String.leb_total a x) as [Hle|Hle]; [exact Hle|congruence]. }
      inversion Hs as [|? ? Hl Hhd]; subst.
      constructor; [apply IH, Hl|].
      destruct l as [|b l']; simpl.
      * constructor. exact Hax.
      * destruct (String.leb x b); constructor; [exact Hax|].
        inversion Hhd; subst. assumption.
Qed.

Lemma order_by_sorted l : Sorted (fun a b => String.leb a b = true) (Pg.order_by l).
Proof.
  induction l as [|x l IH]; simpl; [constructor|].
  apply insert_sorted_sorted, IH.
Qed.

Lemma select_table_names_sorted schema pattern cat :
  Sorted (fun a b => String.leb a b = true)
         (map table_name (Pg.select_table_names schema pattern cat)).
Proof.
  unfold Pg.select_table_names. rewrite map_map. simpl. rewrite map_id.
  apply order_by_sorted.
Qed.

(** When [POST] reports success on the model of the store, [tablesCreated]
    is what the catalog query selects from the catalog the script has left,
    and [tablesCount] is its length. *)
Lemma POST_success_lists_like_matches path_join nd req (s : Pg.store) r s' t :
  POST path_join nd req s = (r, s', t) →
  is_success r →
  tablesCreated r
    = Some (map table_name (Pg.select_table_names "public" "telegram_%" (Pg.tables s'))) ∧
  tablesCount r
    = Some (length (Pg.select_table_names "public" "telegram_%" (Pg.tables s'))).
Proof.
  intros Hrun Hok. unfold is_success in Hok.
  destruct (gate_runs nd req s) as ([|] & tg & Hg & _ & Hadm).
  { rewrite (POST_rejected path_join _ _ _ _ Hg) in Hrun.
    injection Hrun as <- _ _. discriminate. }
  destruct (POST_admitted_cases path_join nd req s (Hadm eq_refl)) as (t0 & _ & Hcase).
  destruct (first_non_empty nd) as [url|];
    [|rewrite Hcase in Hrun; injection Hrun as <- _ _; discriminate].
  destruct (fs nd (path_join [cwd nd; "migrations"; migration_name])) as [|text|e];
    try (rewrite Hcase in Hrun; injection Hrun as <- _ _; discriminate).
  destruct Hcase as (r1 & s1 & t1 & Hblock & Hpost).
  rewrite Hpost in Hrun. injection Hrun as <- <- _.
  unfold apply_with_client in Hblock. open_act.
  destruct (Pg.on_connect s url); simpl in Hblock;
    [injection Hblock as <- _ _; discriminate|].
  destruct (Pg.on_batch s text (Pg.tables s)); simpl in Hblock;
    [injection Hblock as <- _ _; discriminate|].
  injection Hblock as <- <- _. simpl. rewrite length_map. split; reflexivity.
Qed.

(** ** The claims at concrete runs *)

(** C1: on a schema [public] that also holds another application's table
    [telegrams], a successful [POST] lists it in [tablesCreated] and counts
    it, although its name does not start with [telegram_]: in the pattern
    ['telegram_%'] of the catalog query the underscore is the one-character
    wildcard of [LIKE], not a literal. *)
Theorem C1_underscore_is_a_wildcard :
  let r := response_of (POST posix_join development anonymous shared) in
  let catalog := create_users (Pg.tables shared) in
  is_success r ∧
  tablesCreated r = Some ["telegram_users"; "telegrams"] ∧
  tablesCount r = Some 2 ∧
  prefixed_tables catalog = ["telegram_users"] ∧
  String.prefix "telegram_" "telegrams" = false ∧
  tablesCreated r ≠ Some (prefixed_tables catalog).
Proof.
  vm_compute. repeat split; discriminate.
Qed.

(** C2 fails as stated: a connection that cannot be established and a batch
    that fails with the same text give the same body, so the two kinds are
    not told apart; and the already-exists failure is a 500 with
    [success: false] like every other failure. *)
Lemma C2_kinds_not_distinguished :
  response_of (POST posix_join development anonymous unreachable)
    = response_of (POST posix_join development anonymous failing_batch) ∧
  trace_of (POST posix_join development anonymous unreachable)
    ≠ trace_of (POST posix_join development anonymous failing_batch) ∧
  let r := response_of (POST posix_join development anonymous migrated) in
  error r = Some (Js.error_message already_exists_error) ∧
  status r = 500 ∧ success r = Some false ∧ ¬ is_success r ∧
  status r = status (response_of (POST posix_join development anonymous unreachable)).
Proof.
  vm_compute. repeat split; discriminate.
Qed.

(** The amended C2 on the store where the batch aborts with 'already exists'. *)
Lemma C2_failure_body_witness :
  admitted development anonymous ∧
  first_non_empty development = Some direct ∧
  fs development (posix_join [cwd development; "migrations"; migration_name]) = File script ∧
  pg_connect direct migrated = (Ret tt, migrated) ∧
  pg_query (Batch script) migrated = (Throw already_exists_error, migrated) ∧
  pg_end migrated = (Ret tt, migrated) ∧
  ∃ t, POST posix_join development anonymous migrated
       = (apply_failed already_exists_error, migrated, t) ∧
       message (apply_failed already_exists_error) = Some already_exists_note.
Proof.
  assert (Hadm : admitted development anonymous) by (left; vm_compute; discriminate).
  split; [exact Hadm|]. do 5 (split; [reflexivity|]).
  assert (Hfail : pg_connect direct migrated = (Throw already_exists_error, migrated) ∨
                  ∃ s0, pg_connect direct migrated = (Ret tt, s0) ∧
                        pg_query (Batch script) s0 = (Throw already_exists_error, migrated))
    by (right; exists migrated; split; reflexivity).
  destruct (C2_failure_body posix_join development anonymous migrated migrated migrated
              direct script already_exists_error (Ret tt) Hadm eq_refl eq_refl Hfail eq_refl)
    as ((t & Hrun) & _ & _ & _ & Hnote & _).
  exists t. split; [exact Hrun|]. apply Hnote. reflexivity.
Defined.

(** C3 in production, with a wrong bearer and with no header at all. *)
Lemma C3_unauthorized_witness :
  env production !! "NODE_ENV" = Some "production" ∧
  headers wrong_bearer !! "authorization" ≠ Some ("Bearer " +:+ "s3cret") ∧
  response_of (POST posix_join production wrong_bearer fresh) = unauthorized ∧
  response_of (POST posix_join production anonymous fresh) = unauthorized.
Proof.
  split; [reflexivity|]. split; [vm_compute; discriminate|]. split.
  - destruct (C3_unauthorized_before_any_connection posix_join production wrong_bearer fresh
                eq_refl) as (t & Hrun & _).
    + right. intros secret Hsec. vm_compute in Hsec. injection Hsec as <-.
      vm_compute. discriminate.
    + rewrite Hrun. reflexivity.
  - destruct (C3_unauthorized_before_any_connection posix_join production anonymous fresh
                eq_refl (or_introl eq_refl)) as (t & Hrun & _).
    rewrite Hrun. reflexivity.
Defined.

(** C4 fails as stated: in production the gate comes first, so a request
    without the credential is answered Unauthorized, not ConfigMissing, also
    when no descriptor name is set. *)
Lemma C4_gate_comes_first :
  (∀ name, In name descriptor_names → Js.truthy (env production_bare !! name) = false) ∧
  response_of (POST posix_join production_bare anonymous fresh) = unauthorized ∧
  unauthorized ≠ config_missing.
Proof.
  split; [|split; [reflexivity|discriminate]].
  intros name Hin. simpl in Hin.
  destruct Hin as [<-|[<-|[<-|[<-|[]]]]]; reflexivity.
Qed.

(** The amended C4 without any descriptor (also in production without the
    secret, where the CLI still answers), and with two descriptors. *)
Lemma C4_descriptor_resolution_witness :
  admitted unconfigured anonymous ∧
  (∀ name, In name descriptor_names → Js.truthy (env unconfigured !! name) = false) ∧
  response_of (POST posix_join unconfigured anonymous fresh) = config_missing ∧
  exit_code (migrate_cli posix_join unconfigured fresh) = 1 ∧
  exit_code (migrate_cli posix_join production_bare fresh) = 1 ∧
  first_non_empty two_descriptors = Some direct ∧
  (∃ t0 t1, trace_of (POST posix_join two_descriptors anonymous fresh)
            = t0 ++ PgConnect direct :: t1) ∧
  (∃ t0 t1, trace_of (migrate_cli posix_join two_descriptors fresh)
            = t0 ++ PgConnect (direct_url direct) :: t1).
Proof.
  assert (Hadm : admitted unconfigured anonymous) by (left; vm_compute; discriminate).
  assert (Hnone : ∀ name, In name descriptor_names →
                          Js.truthy (env unconfigured !! name) = false).
  { intros name Hin. simpl in Hin. destruct Hin as [<-|[<-|[<-|[<-|[]]]]]; reflexivity. }
  assert (Hbare : ∀ name, In name descriptor_names →
                          Js.truthy (env production_bare !! name) = false).
  { intros name Hin. simpl in Hin. destruct Hin as [<-|[<-|[<-|[<-|[]]]]]; reflexivity. }
  assert (Hadm2 : admitted two_descriptors anonymous) by (left; vm_compute; discriminate).
  split; [exact Hadm|]. split; [exact Hnone|].
  destruct (C4_descriptor_resolution posix_join unconfigured anonymous fresh)
    as [Hmissing _].
  destruct (Hmissing Hnone) as (Hroute & _ & _ & _ & (t' & Hcli & _)).
  destruct (Hroute Hadm) as (t & Hpost & _).
  split; [rewrite Hpost; reflexivity|]. split; [rewrite Hcli; reflexivity|].
  destruct (C4_descriptor_resolution posix_join production_bare anonymous fresh)
    as [Hmissing' _].
  destruct (Hmissing' Hbare) as (_ & _ & _ & _ & (t'' & Hcli' & _)).
  split; [rewrite Hcli'; reflexivity|].
  split; [reflexivity|].
  destruct (C4_descriptor_resolution posix_join two_descriptors anonymous fresh)
    as [_ Hfirst].
  destruct (Hfirst direct eq_refl) as (Hroute2 & _ & Hcli2).
  destruct (Hroute2 Hadm2) as (_ & Hconnect).
  destruct (Hconnect script eq_refl) as (r & s' & t0 & t1 & Hrun & _).
  destruct (Hcli2 script eq_refl) as (c & s2 & t2 & t3 & Hrun2 & _).
  split; [exists t0, t1; rewrite Hrun; reflexivity|].
  exists t2, t3. rewrite Hrun2. reflexivity.
Defined.

(** C5 on the run where the batch throws: the client is ended in the [catch]. *)
Lemma C5_client_ended_witness :
  ∃ pre post,
    trace_of (POST posix_join development anonymous migrated)
      = pre ++ PgConnect direct :: post ∧
    In PgEnd post.
Proof.
  exists [EnvRead "NODE_ENV"; EnvRead "SUPABASE_DB_URL"; EnvRead "DATABASE_URL";
          FsExists migration_path; FsRead migration_path],
         [PgQuery (Batch script); PgEnd].
  split; [reflexivity|].
  destruct (C5_client_ended_on_every_path posix_join development anonymous migrated)
    as [Hroute _].
  apply (Hroute (response_of (POST posix_join development anonymous migrated)) migrated
                (trace_of (POST posix_join development anonymous migrated)))
    with (pre := [EnvRead "NODE_ENV"; EnvRead "SUPABASE_DB_URL"; EnvRead "DATABASE_URL";
                  FsExists migration_path; FsRead migration_path])
         (url := direct);
    reflexivity.
Defined.

(** C6 on a development run against the empty store. *)
Lemma C6_exactly_one_outcome_witness :
  fs development (posix_join [cwd development; "migrations"; migration_name]) = File script ∧
  script ≠ "" ∧
  ∃ r s' t, POST posix_join development anonymous fresh = (r, s', t) ∧
    (is_success r ∧ ¬ is_failure r ∨ is_failure r ∧ ¬ is_success r).
Proof.
  assert (Hscript : script ≠ "") by discriminate.
  split; [reflexivity|]. split; [exact Hscript|].
  exact (C6_exactly_one_outcome posix_join development anonymous fresh script eq_refl Hscript).
Defined.

(** C7 fails as stated.  With a pooler URL as the descriptor the route
    connects to that URL and the CLI to the direct host it derives from it,
    so the targets differ, and where only the pooler host resolves the route
    applies the migration while the CLI exits with 1.  And in production a
    request without the credential makes the route call nothing, while the
    CLI, which has no gate, applies the migration. *)
Lemma C7_targets_and_outcomes_differ :
  store_calls (trace_of (POST posix_join through_pooler anonymous behind_pooler))
    = [PgConnect pooled; PgQuery (Batch script); PgQuery catalog_query; PgEnd] ∧
  store_calls (trace_of (migrate_cli posix_join through_pooler behind_pooler))
    = [PgConnect "postgresql://postgres.abcd:pw@aws-0-eu-central-1.db.supabase.co:6543/postgres";
       PgEnd] ∧
  is_success (response_of (POST posix_join through_pooler anonymous behind_pooler)) ∧
  exit_code (migrate_cli posix_join through_pooler behind_pooler) = 1 ∧
  response_of (POST posix_join production anonymous fresh) = unauthorized ∧
  store_calls (trace_of (POST posix_join production anonymous fresh)) = [] ∧
  exit_code (migrate_cli posix_join production fresh) = 0 ∧
  store_calls (trace_of (migrate_cli posix_join production fresh))
    = [PgConnect direct; PgQuery (Batch script); PgQuery catalog_query; PgEnd].
Proof.
  vm_compute. repeat split.
Qed.

(** The amended C7 in production with the right bearer and a direct URL. *)
Lemma C7_route_and_cli_agree_witness :
  admitted production right_bearer ∧
  posix_join [cwd production; "migrations"; migration_name]
    = posix_join [dirname production; ".."; "migrations"; migration_name] ∧
  first_non_empty production = Some direct ∧
  Js.includes "pooler.supabase.com" direct = false ∧
  ∃ r code s' t1 t2,
    POST posix_join production right_bearer fresh = (r, s', t1) ∧
    migrate_cli posix_join production fresh = (code, s', t2) ∧
    store_calls t1 = store_calls t2 ∧
    (is_success r ∧ code = 0 ∨ is_failure r ∧ code = 1).
Proof.
  assert (Hadm : admitted production right_bearer).
  { right. exists "s3cret". split; [reflexivity|]. split; [discriminate|reflexivity]. }
  assert (Hplain : ∀ url, first_non_empty production = Some url →
                          Js.includes "pooler.supabase.com" url = false).
  { intros url Hurl. vm_compute in Hurl. injection Hurl as <-. reflexivity. }
  split; [exact Hadm|]. split; [reflexivity|]. split; [reflexivity|].
  split; [reflexivity|].
  exact (C7_route_and_cli_agree posix_join production right_bearer fresh Hadm eq_refl Hplain).
Defined.

(** C8 fails as stated: when something is at the path and reading it
    throws, [GET] answers neither the text nor NotFound but a 500 with the
    error's message. *)
Lemma C8_unreadable_is_neither :
  let r := response_of (GET posix_join unreadable_file fresh) in
  fs unreadable_file (posix_join [cwd unreadable_file; "migrations"; migration_name]) ≠ Missing ∧
  trace_of (GET posix_join unreadable_file fresh)
    = [FsExists migration_path; FsRead migration_path] ∧
  sql r = None ∧ r ≠ not_found ∧ status r = 500 ∧ success r = Some false.
Proof.
  vm_compute. repeat split; discriminate.
Qed.

(** C9 in production without MIGRATION_SECRET, for the header [Bearer undefined]. *)
Lemma C9_missing_secret_witness :
  env production_without_secret !! "NODE_ENV" = Some "production" ∧
  Js.truthy (env production_without_secret !! "MIGRATION_SECRET") = false ∧
  response_of (POST posix_join production_without_secret undefined_bearer fresh)
    = unauthorized ∧
  store_calls (trace_of (POST posix_join production_without_secret undefined_bearer fresh))
    = [].
Proof.
  split; [reflexivity|]. split; [reflexivity|].
  rewrite (C9_missing_secret_fails_closed posix_join production_without_secret
             undefined_bearer fresh eq_refl eq_refl).
  split; reflexivity.
Defined.

(** C10 fails as stated: in production, with the migration file there but
    not readable, [existsSync] is true and [GET] answers 500 without the
    text. *)
Lemma C10_unreadable_in_production :
  let r := response_of (GET posix_join production_unreadable fresh) in
  env production_unreadable !! "NODE_ENV" = Some "production" ∧
  fs production_unreadable
     (posix_join [cwd production_unreadable; "migrations"; migration_name]) ≠ Missing ∧
  trace_of (GET posix_join production_unreadable fresh)
    = [FsExists migration_path; FsRead migration_path] ∧
  sql r = None ∧ status r = 500 ∧ success r = Some false.
Proof.
  vm_compute. repeat split; discriminate.
Qed.

(** The amended C10 in production without MIGRATION_SECRET: [GET] gives the
    text where [POST] turns the same caller away. *)
Lemma C10_GET_is_not_gated_witness :
  fs production_without_secret
     (posix_join [cwd production_without_secret; "migrations"; migration_name]) = File script ∧
  response_of (GET posix_join production_without_secret fresh) = script_text script ∧
  response_of (POST posix_join production_without_secret anonymous fresh) = unauthorized.
Proof.
  split; [reflexivity|].
  destruct (C10_GET_is_not_gated posix_join production_without_secret fresh)
    as (_ & _ & _ & Hfile & _).
  destruct (Hfile script eq_refl) as (Hrun & _).
  split; [rewrite Hrun; reflexivity|reflexivity].
Defined.

(** ** Further properties of the route and the CLI *)

Lemma emits_ret {St A} (P : event → Prop) (a : A) : emits P (ret (St:=St) a).
Proof. intros s. constructor. Qed.

Lemma emits_throw {St A} (P : event → Prop) e : emits P (throw (St:=St) (A:=A) e).
Proof. intros s. constructor. Qed.

Lemma emits_emit {St} (P : event → Prop) e : P e → emits P (emit (St:=St) e).
Proof. intros He s. repeat constructor. exact He. Qed.

Lemma emits_bind {St A B} (P : event → Prop) (m : act St A) (k : A → act St B) :
  emits P m → (∀ a, emits P (k a)) → emits P (bind m k).
Proof.
  intros Hm Hk s. unfold bind. specialize (Hm s).
  destruct (m s) as [[[a|e] s1] t1]; simpl in *; [|exact Hm].
  specialize (Hk a s1). destruct (k a s1) as [[r s2] t2]; simpl in *.
  apply Forall_app; split; assumption.
Qed.

Lemma emits_try_catch {St A} (P : event → Prop) (m : act St A) h :
  emits P m → (∀ e, emits P (h e)) → emits P (try_catch m h).
Proof.
  intros Hm Hh s. unfold try_catch. specialize (Hm s).
  destruct (m s) as [[[a|e] s1] t1]; simpl in *; [exact Hm|].
  specialize (Hh e s1). destruct (h e s1) as [[r s2] t2]; simpl in *.
  apply Forall_app; split; assumption.
Qed.

Lemma emits_connect {St} `{PgClient St} (P : event → Prop) url :
  P (PgConnect url) → emits P (connect url).
Proof.
  intros HP s. unfold connect. destruct (pg_connect url s). repeat constructor. exact HP.
Qed.

Lemma emits_query {St} `{PgClient St} (P : event → Prop) q :
  P (PgQuery q) → emits P (query q).
Proof.
  intros HP s. unfold query. destruct (pg_query q s). repeat constructor. exact HP.
Qed.

Lemma emits_client_end {St} `{PgClient St} (P : event → Prop) :
  P PgEnd → emits P client_end.
Proof.
  intros HP s. unfold client_end. destruct (pg_end s). repeat constructor. exact HP.
Qed.

Lemma emits_getenv {St} (P : event → Prop) nd name :
  P (EnvRead name) → emits P (getenv (St:=St) nd name).
Proof. intros HP. apply emits_bind; [apply emits_emit, HP|intros; apply emits_ret]. Qed.

Lemma emits_env_or {St} (P : event → Prop) nd name rest :
  P (EnvRead name) → emits P rest → emits P (env_or (St:=St) nd name rest).
Proof.
  intros HP Hrest. apply emits_bind; [apply emits_getenv, HP|].
  intros v. destruct (Js.truthy v); [apply emits_ret|exact Hrest].
Qed.

Lemma emits_databaseUrl {St} (P : event → Prop) nd :
  (∀ name, In name descriptor_names → P (EnvRead name)) →
  emits P (databaseUrl (St:=St) nd).
Proof.
  intros HP. unfold databaseUrl.
  repeat (apply emits_env_or; [apply HP; simpl; auto 6|]).
  apply emits_getenv, HP. simpl. auto 6.
Qed.

Section Whitelists.
Context {St : Type} `{PgClient St}.
Variable path_join : list string → string.

(** X1: whatever the process, the request and the store are, a run of
    [POST] reads no other variables of the environment than [NODE_ENV],
    [MIGRATION_SECRET] and the four descriptor names, no other header than
    [authorization], looks at no other path than the migration file, sends
    the client nothing but one kind of batch and the catalog query, and
    prints nothing. *)
Theorem POST_touches_only nd req (s : St) :
  Forall (route_event (path_join [cwd nd; "migrations"; migration_name]))
         (snd (POST path_join nd req s)).
Proof.
  set (P := route_event (path_join [cwd nd; "migrations"; migration_name])).
  assert (Htry : emits P (POST_try path_join nd req)).
  { unfold POST_try, gate.
    apply emits_bind.
    - apply emits_bind; [apply emits_getenv; simpl; auto|].
      intros nodeEnv. destruct (bool_decide (nodeEnv = Some "production")); [|apply emits_ret].
      apply emits_bind; [apply emits_bind; [apply emits_emit; reflexivity|intros; apply emits_ret]|].
      intros authHeader. apply emits_bind; [apply emits_getenv; simpl; auto|].
      intros secret. apply emits_ret.
    - intros [|]; [apply emits_ret|].
      apply emits_bind; [apply emits_databaseUrl; intros name Hin; simpl; auto|].
      intros url. destruct (Js.nonempty url) as [connectionString|]; [|apply emits_ret].
      apply emits_bind;
        [apply emits_bind; [apply emits_emit; reflexivity|intros; apply emits_ret]|].
      intros [|]; [|apply emits_ret]. simpl.
      apply emits_bind.
      { unfold readFileSync. apply emits_bind; [apply emits_emit; reflexivity|].
        intros _. destruct (fs nd _); [apply emits_throw|apply emits_ret|apply emits_throw]. }
      intros text. unfold apply_with_client. apply emits_try_catch.
      + apply emits_bind; [apply emits_connect; exact I|]. intros _.
        apply emits_bind; [apply emits_query; right; eauto|]. intros _.
        apply emits_bind; [apply emits_query; left; reflexivity|]. intros result.
        apply emits_bind; [apply emits_client_end; exact I|]. intros _. apply emits_ret.
      + intros dbError. apply emits_bind; [apply emits_client_end; exact I|].
        intros _. apply emits_throw. }
  unfold POST. specialize (Htry s).
  destruct (POST_try path_join nd req s) as [[[r|e] s'] t]; exact Htry.
Qed.

(** X2: once the script has loaded its .env files (lines 9-10, through
    dotenv, which is not part of this model), the call of
    [applyMigration()] with its top-level [catch] (lines 12-161) reads no
    other variables of the environment than the four descriptor names and
    the two names of the Supabase URL (so neither [NODE_ENV] nor
    [MIGRATION_SECRET]: it has no gate), reads no header, looks at no other
    path than its migration file, and sends the client nothing but the
    batch and the catalog query. *)
Theorem migrate_cli_touches_only nd (s : St) :
  Forall (cli_event (path_join [dirname nd; ".."; "migrations"; migration_name]))
         (snd (migrate_cli path_join nd s)).
Proof.
  set (P := cli_event (path_join [dirname nd; ".."; "migrations"; migration_name])).
  assert (Hlog : ∀ n, emits (St:=St) P (log n)) by (intros n; apply emits_emit; exact I).
  assert (Htry : emits P (applyMigration path_join nd)).
  { unfold applyMigration.
    apply emits_bind; [apply Hlog|]. intros _.
    apply emits_bind; [apply emits_databaseUrl; intros name Hin; simpl; auto|].
    intros url.
    apply emits_bind; [apply emits_env_or; [simpl; auto|apply emits_getenv; simpl; auto]|].
    intros supabaseUrl. destruct (Js.nonempty url) as [connectionString|].
    - apply emits_bind;
        [apply emits_bind; [apply emits_emit; reflexivity|intros; apply emits_ret]|].
      intros [|]; simpl; [|apply emits_bind; [apply Hlog|intros; apply emits_ret]].
      apply emits_bind.
      { unfold readFileSync. apply emits_bind; [apply emits_emit; reflexivity|].
        intros _. destruct (fs nd _); [apply emits_throw|apply emits_ret|apply emits_throw]. }
      intros text. apply emits_bind; [apply Hlog|]. intros _.
      apply emits_bind; [destruct (Js.nonempty supabaseUrl); [apply Hlog|apply emits_ret]|].
      intros _.
      apply emits_bind; [destruct (Js.includes _ _); [apply Hlog|apply emits_ret]|].
      intros _. apply emits_bind; [apply Hlog|]. intros _.
      unfold migrate_with_client. apply emits_try_catch.
      + apply emits_bind; [apply emits_connect; exact I|]. intros _.
        apply emits_bind; [apply Hlog|]. intros _.
        apply emits_bind; [apply Hlog|]. intros _.
        apply emits_bind; [apply emits_query; right; eauto|]. intros _.
        apply emits_bind; [apply Hlog|]. intros _.
        apply emits_bind; [apply Hlog|]. intros _.
        apply emits_bind; [apply emits_query; left; reflexivity|]. intros result.
        apply emits_bind; [destruct (Nat.ltb _ _); apply Hlog|]. intros _.
        apply emits_bind; [apply emits_client_end; exact I|]. intros _.
        apply emits_bind; [apply Hlog|]. intros _. apply emits_ret.
      + intros error. apply emits_bind; [apply emits_client_end; exact I|]. intros _.
        destruct error.
        * apply emits_bind; [apply Hlog|]. intros _.
          apply emits_bind; [apply Hlog|]. intros _. apply emits_ret.
        * apply emits_bind; [apply Hlog|]. intros _. apply emits_throw.
    - apply emits_bind; [apply Hlog|]. intros _.
      apply emits_bind; [destruct (Js.truthy supabaseUrl); [apply Hlog|apply emits_ret]|].
      intros _. apply emits_ret. }
  unfold migrate_cli. specialize (Htry s).
  destruct (applyMigration path_join nd s) as [[[[code|]|e] s'] t]; simpl in *;
    try exact Htry.
  apply Forall_app; split; [exact Htry|]. repeat constructor.
Qed.

End Whitelists.

Lemma emits_bind_from {St A B} (P : event → Prop) (m : act St A) (k : A → act St B)
      s a s1 t1 :
  m s = (Ret a, s1, t1) → Forall P t1 → emits P (k a) →
  Forall P (snd (bind m k s)).
Proof.
  intros Hm Ht Hk. rewrite (bind_ret _ _ _ _ _ _ Hm).
  specialize (Hk s1). destruct (k a s1) as [[r s2] t2]; simpl in *.
  apply Forall_app; split; assumption.
Qed.

Lemma classic_admitted nd req : admitted nd req ∨ ¬ admitted nd req.
Proof.
  unfold admitted.
  destruct (decide (env nd !! "NODE_ENV" = Some "production")) as [Hprod|Hdev]; [|auto].
  destruct (env nd !! "MIGRATION_SECRET") as [secret|] eqn:Hsec.
  - destruct (decide (secret = "")) as [->|Hne].
    + right. intros [Hdev|(sec & [= <-] & Hne & _)]; contradiction.
    + destruct (decide (headers req !! "authorization" = Some ("Bearer " +:+ secret)))
        as [Hhdr|Hhdr].
      * left. right. exists secret. auto.
      * right. intros [Hdev|(sec & [= <-] & _ & Hh)]; contradiction.
  - right. intros [Hdev|(sec & Hs & _)]; [contradiction|discriminate].
Qed.

Section Paths.
Context {St : Type} `{PgClient St}.
Variable path_join : list string → string.

Abbreviation the_file nd := (path_join [cwd nd; "migrations"; migration_name]).
Abbreviation the_cli_file nd := (path_join [dirname nd; ".."; "migrations"; migration_name]).

(** The client block of the route returns only when its four calls have
    returned, in this order. *)
Lemma apply_with_client_returns url text (s s' : St) resp t :
  apply_with_client url text s = (Ret resp, s', t) →
  ∃ s1 l s2 rows s3,
    pg_connect url s = (Ret tt, s1) ∧
    pg_query (Batch text) s1 = (Ret l, s2) ∧
    pg_query catalog_query s2 = (Ret rows, s3) ∧
    pg_end s3 = (Ret tt, s') ∧
    resp = applied (map table_name rows) ∧
    t = [PgConnect url; PgQuery (Batch text); PgQuery catalog_query; PgEnd].
Proof.
  unfold apply_with_client. open_act.
  destruct (pg_connect url s) as [[[]|e1] s1] eqn:Hc; simpl.
  2: { destruct (pg_end s1) as [[[]|?] ?]; simpl; discriminate. }
  destruct (pg_query (Batch text) s1) as [[l|e2] s2] eqn:Hb; simpl.
  2: { destruct (pg_end s2) as [[[]|?] ?]; simpl; discriminate. }
  destruct (pg_query catalog_query s2) as [[rows|e3] s3] eqn:Hq; simpl.
  2: { destruct (pg_end s3) as [[[]|?] ?]; simpl; discriminate. }
  destruct (pg_end s3) as [[[]|e4] s4] eqn:He; simpl.
  2: { destruct (pg_end s4) as [[[]|?] ?]; simpl; discriminate. }
  intros [= <- <- <-]. exists s1, l, s2, rows, s3. repeat split; assumption.
Qed.

(** The client block returns when its four calls return. *)
Lemma apply_with_client_completes url text (s s1 s2 s3 s' : St) l rows :
  pg_connect url s = (Ret tt, s1) →
  pg_query (Batch text) s1 = (Ret l, s2) →
  pg_query catalog_query s2 = (Ret rows, s3) →
  pg_end s3 = (Ret tt, s') →
  apply_with_client url text s
    = (Ret (applied (map table_name rows)), s',
       [PgConnect url; PgQuery (Batch text); PgQuery catalog_query; PgEnd]).
Proof.
  intros Hc Hb Hq He. unfold apply_with_client. open_act.
  rewrite Hc. simpl. rewrite Hb. simpl. rewrite Hq. simpl. rewrite He. reflexivity.
Qed.

(** X3: [POST] answers with the success body exactly when the request has
    passed the gate, a descriptor is set, the migration file reads, and the
    four calls of the client have all returned, each on the store the call
    before it has left: connect with the first non-empty descriptor, the
    text of the file as one batch, the catalog query, end.  Then these are
    the only calls of the client, in this order; [tablesCreated] holds the
    names of the rows that this catalog query, run on the store the batch
    has left, returned, [tablesCount] is their number, and the store is the
    one the end has left. *)
Theorem POST_success_iff nd req (s s' : St) r t :
  POST path_join nd req s = (r, s', t) →
  (is_success r →
   admitted nd req ∧
   ∃ url text s1 l s2 rows s3,
     first_non_empty nd = Some url ∧
     fs nd (the_file nd) = File text ∧
     pg_connect url s = (Ret tt, s1) ∧
     pg_query (Batch text) s1 = (Ret l, s2) ∧
     pg_query catalog_query s2 = (Ret rows, s3) ∧
     pg_end s3 = (Ret tt, s') ∧
     status r = 200 ∧
     tablesCreated r = Some (map table_name rows) ∧
     tablesCount r = Some (length rows) ∧
     store_calls t = [PgConnect url; PgQuery (Batch text); PgQuery catalog_query; PgEnd]) ∧
  (admitted nd req →
   ∀ url text s1 l s2 rows s3 s4,
     first_non_empty nd = Some url →
     fs nd (the_file nd) = File text →
     pg_connect url s = (Ret tt, s1) →
     pg_query (Batch text) s1 = (Ret l, s2) →
     pg_query catalog_query s2 = (Ret rows, s3) →
     pg_end s3 = (Ret tt, s4) →
     is_success r ∧ r = applied (map table_name rows) ∧ s' = s4).
Proof.
  intros Hrun. split.
  - intros Hok. unfold is_success in Hok.
    destruct (gate_runs nd req s) as ([|] & tg & Hg & _ & Hadm).
    { rewrite (POST_rejected path_join _ _ _ _ Hg) in Hrun.
      injection Hrun as <- _ _. discriminate. }
    specialize (Hadm eq_refl). split; [exact Hadm|].
    destruct (POST_admitted_cases path_join nd req s Hadm) as (t0 & Hq0 & Hcase).
    destruct (first_non_empty nd) as [url|];
      [|rewrite Hcase in Hrun; injection Hrun as <- _ _; discriminate].
    destruct (fs nd (the_file nd)) as [|text|e];
      try (rewrite Hcase in Hrun; injection Hrun as <- _ _; discriminate).
    destruct Hcase as (r1 & s1 & t1 & Hblock & Hpost).
    rewrite Hpost in Hrun. injection Hrun as <- <- <-.
    destruct r1 as [resp|e]; [|discriminate].
    destruct (apply_with_client_returns _ _ _ _ _ _ Hblock)
      as (s1' & l & s2 & rows & s3 & Hc & Hb & Hq & He & -> & ->).
    exists url, text, s1', l, s2, rows, s3. repeat split; try assumption.
    + simpl. rewrite length_map. reflexivity.
    + rewrite store_calls_app, (quiet_store_calls t0) by exact Hq0. reflexivity.
  - intros Hadm url text s1 l s2 rows s3 s4 Hurl Hfile Hc Hb Hq He.
    destruct (POST_admitted_cases path_join nd req s Hadm) as (t0 & _ & Hcase).
    rewrite Hurl, Hfile in Hcase. destruct Hcase as (r1 & s1' & t1 & Hblock & Hpost).
    rewrite (apply_with_client_completes _ _ _ _ _ _ _ _ _ Hc Hb Hq He) in Hblock.
    injection Hblock as <- <- <-. rewrite Hpost in Hrun. inversion Hrun.
    repeat split.
Qed.

(** X4: when the batch has run and a later call throws (the catalog query,
    or [client.end()] after it), [POST] answers the 500 failure body with
    the message of the error that reaches the outer [catch].  The batch is
    not undone: the only calls after it are the catalog query and the ends,
    and the store is left as these leave it. *)
Theorem POST_fails_after_the_batch nd req (s s1 s2 s3 s4 : St) url text l e ended :
  admitted nd req →
  first_non_empty nd = Some url →
  fs nd (the_file nd) = File text →
  pg_connect url s = (Ret tt, s1) →
  pg_query (Batch text) s1 = (Ret l, s2) →
  (pg_query catalog_query s2 = (Throw e, s3) ∨
   ∃ rows s2', pg_query catalog_query s2 = (Ret rows, s2') ∧ pg_end s2' = (Throw e, s3)) →
  pg_end s3 = (ended, s4) →
  let caught := match ended with Ret _ => e | Throw e' => e' end in
  ∃ t, POST path_join nd req s = (apply_failed caught, s4, t) ∧
       status (apply_failed caught) = 500 ∧
       is_failure (apply_failed caught) ∧
       ∃ rest, store_calls t
               = PgConnect url :: PgQuery (Batch text) :: PgQuery catalog_query :: rest ∧
               Forall (fun c => c = PgEnd) rest.
Proof.
  intros Hadm Hurl Hfile Hc Hb Hlater Hend caught.
  destruct (POST_admitted_cases path_join nd req s Hadm) as (t0 & Hq0 & Hpost).
  rewrite Hurl, Hfile in Hpost. destruct Hpost as (r & s' & t & Hblock & Hpost).
  assert (Hthrow : ∃ rest, apply_with_client url text s
             = (Throw caught, s4,
                PgConnect url :: PgQuery (Batch text) :: PgQuery catalog_query :: rest) ∧
             Forall (fun c => c = PgEnd) rest).
  { unfold apply_with_client. open_act. subst caught.
    rewrite Hc. simpl. rewrite Hb. simpl.
    destruct Hlater as [Hq|(rows & s2' & Hq & He)].
    - rewrite Hq. simpl. rewrite Hend.
      destruct ended; (eexists; split; [reflexivity|repeat constructor]).
    - rewrite Hq. simpl. rewrite He. simpl. rewrite Hend.
      destruct ended; (eexists; split; [reflexivity|repeat constructor]). }
  destruct Hthrow as (rest & Hthrow & Hrest). rewrite Hthrow in Hblock.
  injection Hblock as <- <- <-.
  eexists. split; [exact Hpost|]. split; [reflexivity|]. split; [left; reflexivity|].
  exists rest. split; [|exact Hrest].
  rewrite store_calls_app, (quiet_store_calls t0) by exact Hq0.
  simpl. f_equal. f_equal. f_equal.
  clear -Hrest. induction Hrest as [|c rest -> _ IH]; [reflexivity|].
  simpl. f_equal. exact IH.
Qed.

(** A request that does not pass the gate is answered 401 without a call
    of the client. *)
Lemma POST_not_admitted nd req (s : St) :
  ¬ admitted nd req → ∃ t, POST path_join nd req s = (unauthorized, s, t) ∧ quiet t.
Proof.
  intros Hno. destruct (gate_runs nd req s) as ([|] & tg & Hg & Hq & Hadm).
  - exists tg. split; [apply POST_rejected, Hg|exact Hq].
  - exfalso. exact (Hno (Hadm eq_refl)).
Qed.

(** Two runs of [POST] that agree on the gate, the descriptor and the file. *)
Lemma POST_same_run nd req nd' req' (s : St) :
  (admitted nd req ↔ admitted nd' req') →
  first_non_empty nd = first_non_empty nd' →
  fs nd (the_file nd) = fs nd' (the_file nd') →
  ∃ r s' t t',
    POST path_join nd req s = (r, s', t) ∧
    POST path_join nd' req' s = (r, s', t') ∧
    store_calls t = store_calls t'.
Proof.
  intros Hgate Hurl Hfile.
  destruct (classic_admitted nd req) as [Hadm|Hno].
  - destruct (POST_admitted_cases path_join nd req s Hadm) as (t0 & Hq0 & Hcase).
    destruct (POST_admitted_cases path_join nd' req' s (proj1 Hgate Hadm))
      as (t0' & Hq0' & Hcase').
    rewrite <- Hurl, <- Hfile in Hcase'.
    destruct (first_non_empty nd) as [url|].
    + destruct (fs nd (the_file nd)) as [|text|e].
      * do 4 eexists. split; [exact Hcase|]. split; [exact Hcase'|].
        rewrite !quiet_store_calls by assumption. reflexivity.
      * destruct Hcase as (r1 & s1 & t1 & Hblock & Hpost).
        destruct Hcase' as (r1' & s1' & t1' & Hblock' & Hpost').
        rewrite Hblock in Hblock'. injection Hblock' as <- <- <-.
        do 4 eexists. split; [exact Hpost|]. split; [exact Hpost'|].
        rewrite !store_calls_app, !(quiet_store_calls t0), !(quiet_store_calls t0')
          by assumption. reflexivity.
      * do 4 eexists. split; [exact Hcase|]. split; [exact Hcase'|].
        rewrite !quiet_store_calls by assumption. reflexivity.
    + do 4 eexists. split; [exact Hcase|]. split; [exact Hcase'|].
      rewrite !quiet_store_calls by assumption. reflexivity.
  - destruct (POST_not_admitted nd req s Hno) as (t & Hrun & Hq).
    destruct (POST_not_admitted nd' req' s (fun H => Hno (proj2 Hgate H)))
      as (t' & Hrun' & Hq').
    do 4 eexists. split; [exact Hrun|]. split; [exact Hrun'|].
    rewrite !quiet_store_calls by assumption. reflexivity.
Qed.

(** X5: what [POST] answers, what it leaves in the store and what it sends
    to the client depend on nothing but whether the request passes the gate,
    the first non-empty descriptor, the state of the migration file, and the
    store: two processes and requests that agree on these get the same
    answer, the same store and the same calls. *)
Theorem POST_depends_only_on nd req nd' req' (s : St) :
  (admitted nd req ↔ admitted nd' req') →
  first_non_empty nd = first_non_empty nd' →
  fs nd (the_file nd) = fs nd' (the_file nd') →
  ∃ r s' t t',
    POST path_join nd req s = (r, s', t) ∧
    POST path_join nd' req' s = (r, s', t') ∧
    store_calls t = store_calls t'.
Proof.
  intros Hgate Hurl Hfile. exact (POST_same_run nd req nd' req' s Hgate Hurl Hfile).
Qed.

(** X6: outside production the request plays no part: whatever headers it
    carries, [POST] gives the same answer, the same store and the very same
    trace, in which no header and no [MIGRATION_SECRET] is read. *)
Theorem POST_ignores_the_request_outside_production nd req req' (s : St) :
  env nd !! "NODE_ENV" ≠ Some "production" →
  POST path_join nd req s = POST path_join nd req' s ∧
  Forall no_credential_read (snd (POST path_join nd req s)).
Proof.
  intros Hdev. split.
  - unfold POST, POST_try.
    rewrite !(bind_ret _ _ _ _ _ _ (gate_elsewhere nd _ s Hdev)). reflexivity.
  - assert (Htry : Forall no_credential_read (snd (POST_try path_join nd req s))).
    { unfold POST_try.
      eapply emits_bind_from; [apply gate_elsewhere, Hdev|repeat constructor; discriminate|].
      cbn iota beta.
      apply emits_bind;
        [apply emits_databaseUrl; intros name Hin; simpl in Hin;
         destruct Hin as [<-|[<-|[<-|[<-|[]]]]]; discriminate|].
      intros url. destruct (Js.nonempty url) as [connectionString|]; [|apply emits_ret].
      apply emits_bind;
        [apply emits_bind; [apply emits_emit; exact I|intros; apply emits_ret]|].
      intros [|]; [|apply emits_ret]. simpl.
      apply emits_bind.
      { unfold readFileSync. apply emits_bind; [apply emits_emit; exact I|].
        intros _. destruct (fs nd _); [apply emits_throw|apply emits_ret|apply emits_throw]. }
      intros text. unfold apply_with_client. apply emits_try_catch.
      + apply emits_bind; [apply emits_connect; exact I|]. intros _.
        apply emits_bind; [apply emits_query; exact I|]. intros _.
        apply emits_bind; [apply emits_query; exact I|]. intros result.
        apply emits_bind; [apply emits_client_end; exact I|]. intros _. apply emits_ret.
      + intros dbError. apply emits_bind; [apply emits_client_end; exact I|].
        intros _. apply emits_throw. }
    unfold POST. destruct (POST_try path_join nd req s) as [[[r|e] s'] t]; exact Htry.
Qed.

(** The client block of the CLI: when it gives no exit code its four calls
    have returned, in this order. *)
Lemma migrate_with_client_returns url text (s s' : St) t :
  migrate_with_client url text s = (Ret None, s', t) →
  ∃ s1 l s2 rows s3,
    pg_connect url s = (Ret tt, s1) ∧
    pg_query (Batch text) s1 = (Ret l, s2) ∧
    pg_query catalog_query s2 = (Ret rows, s3) ∧
    pg_end s3 = (Ret tt, s') ∧
    store_calls t = [PgConnect url; PgQuery (Batch text); PgQuery catalog_query; PgEnd] ∧
    In (Console NoteDone) t ∧
    (rows = [] → In (Console NoteNoTables) t) ∧
    (rows ≠ [] → In (Console (NoteFound (map table_name rows))) t).
Proof.
  unfold migrate_with_client. open_act.
  destruct (pg_connect url s) as [[[]|e1] s1] eqn:Hc; simpl.
  2: { destruct (pg_end s1) as [[[]|?] ?]; destruct e1; simpl; discriminate. }
  destruct (pg_query (Batch text) s1) as [[l|e2] s2] eqn:Hb; simpl.
  2: { destruct (pg_end s2) as [[[]|?] ?]; destruct e2; simpl; discriminate. }
  destruct (pg_query catalog_query s2) as [[rows|e3] s3] eqn:Hq; simpl.
  2: { destruct (pg_end s3) as [[[]|?] ?]; destruct e3; simpl; discriminate. }
  destruct rows as [|row rows]; simpl;
    (destruct (pg_end s3) as [[[]|e4] s4] eqn:He; simpl;
     [|destruct (pg_end s4) as [[[]|?] ?]; destruct e4; simpl; discriminate]);
    intros [= <- <-]; exists s1, l, s2; eexists; exists s3;
    (repeat split; try eassumption; simpl; auto 12; try congruence).
Qed.

Lemma migrate_with_client_completes url text (s s1 s2 s3 s' : St) l rows :
  pg_connect url s = (Ret tt, s1) →
  pg_query (Batch text) s1 = (Ret l, s2) →
  pg_query catalog_query s2 = (Ret rows, s3) →
  pg_end s3 = (Ret tt, s') →
  ∃ t, migrate_with_client url text s = (Ret None, s', t).
Proof.
  intros Hc Hb Hq He. unfold migrate_with_client. open_act.
  rewrite Hc. simpl. rewrite Hb. simpl. rewrite Hq. simpl.
  destruct (Nat.ltb 0 (length rows)); simpl; rewrite He; simpl; eauto.
Qed.

(** X7: the CLI exits with 0 exactly when a descriptor is set, its
    migration file reads, and the four calls of the client have all
    returned, the connection being made with the direct-host form of the
    first non-empty descriptor; every other run exits with 1.  A run that
    exits with 0 has called the client exactly four times (connect, the
    text of the file as one batch, the catalog query, end) and has printed
    its closing note. *)
Theorem migrate_cli_success_iff nd (s s' : St) code t :
  migrate_cli path_join nd s = (code, s', t) →
  (code = 0 ∨ code = 1) ∧
  (code = 0 ↔
   ∃ url text s1 l s2 rows s3,
     first_non_empty nd = Some url ∧
     fs nd (the_cli_file nd) = File text ∧
     pg_connect (direct_url url) s = (Ret tt, s1) ∧
     pg_query (Batch text) s1 = (Ret l, s2) ∧
     pg_query catalog_query s2 = (Ret rows, s3) ∧
     pg_end s3 = (Ret tt, s')) ∧
  (code = 0 →
   ∃ url text,
     first_non_empty nd = Some url ∧
     fs nd (the_cli_file nd) = File text ∧
     store_calls t = [PgConnect (direct_url url); PgQuery (Batch text);
                      PgQuery catalog_query; PgEnd] ∧
     In (Console NoteDone) t).
Proof.
  intros Hrun.
  destruct (migrate_cli_cases path_join nd s) as (t0 & Hq0 & Hcase).
  destruct (first_non_empty nd) as [url|].
  2: { destruct Hcase as [Hcase _]. rewrite Hcase in Hrun. injection Hrun as <- _ _.
       split; [auto|]. split; [split; [discriminate|]|discriminate].
       intros (? & ? & ? & ? & ? & ? & ? & ? & _). discriminate. }
  destruct (fs nd (the_cli_file nd)) as [|text|e].
  1, 3: rewrite Hcase in Hrun; injection Hrun as <- _ _;
    (split; [auto|]); (split; [split; [discriminate|]|discriminate]);
    intros (? & ? & ? & ? & ? & ? & ? & _ & ? & _); discriminate.
  destruct Hcase as (r & s1 & tc & tz & Hblock & Hqz & Hcli).
  rewrite Hcli in Hrun. injection Hrun as <- <- <-.
  destruct (migrate_with_client_runs (direct_url url) text s)
    as (r' & s'' & t' & Hrun' & _ & _ & Hr).
  rewrite Hblock in Hrun'. injection Hrun' as Er Es Et. subst r' s''.
  destruct r as [[c|]|e].
  - destruct Hr as [Hr|Hr]; [discriminate|]. injection Hr as ->.
    split; [auto|]. split; [split; [discriminate|]|discriminate].
    intros (u & x & s1' & l & s2 & rows & s3 & [= <-] & [= <-] & Hc & Hb & Hq & He).
    destruct (migrate_with_client_completes _ _ _ _ _ _ _ _ _ Hc Hb Hq He) as (t2 & Hdone).
    rewrite Hdone in Hblock. discriminate.
  - destruct (migrate_with_client_returns _ _ _ _ _ Hblock)
      as (s1' & l & s2 & rows & s3 & Hc & Hb & Hq & He & Hcalls & Hnote & _).
    split; [auto|]. split; [split; [intros _|reflexivity]|intros _].
    + exists url, text, s1', l, s2, rows, s3. auto 7.
    + exists url, text. repeat split.
      * rewrite !store_calls_app, (quiet_store_calls t0), (quiet_store_calls tz)
          by assumption. rewrite app_nil_r. exact Hcalls.
      * rewrite !in_app_iff. auto.
  - split; [auto|]. split; [split; [discriminate|]|discriminate].
    intros (u & x & s1' & l & s2 & rows & s3 & [= <-] & [= <-] & Hc & Hb & Hq & He).
    destruct (migrate_with_client_completes _ _ _ _ _ _ _ _ _ Hc Hb Hq He) as (t2 & Hdone).
    rewrite Hdone in Hblock. discriminate.
Qed.

(** X8: with a descriptor set, a request that passes the gate and finds
    nothing at the migration path is answered 404 "Migration file not
    found"; when something is there and reading it throws, it is answered
    the 500 failure body with the error's message.  In both cases the
    client is not called and the store is as it was. *)
Theorem POST_file_problems nd req (s : St) url :
  admitted nd req →
  first_non_empty nd = Some url →
  (fs nd (the_file nd) = Missing →
   ∃ t, POST path_join nd req s = (not_found, s, t) ∧ quiet t ∧
        status not_found = 404 ∧ is_failure not_found) ∧
  (∀ e, fs nd (the_file nd) = Unreadable e →
   ∃ t, POST path_join nd req s = (apply_failed e, s, t) ∧ quiet t ∧
        error (apply_failed e) = Some (Js.error_message e)).
Proof.
  intros Hadm Hurl.
  destruct (POST_admitted_cases path_join nd req s Hadm) as (t0 & Hq0 & Hcase).
  rewrite Hurl in Hcase. split.
  - intros Hfile. rewrite Hfile in Hcase. exists t0. repeat split; try assumption.
    right. simpl. eauto.
  - intros e Hfile. rewrite Hfile in Hcase. exists t0. repeat split; assumption.
Qed.

(** X9: with a descriptor set, the CLI that finds nothing at its
    migration path says so and exits with 1; when something is there and
    reading it throws, the error is caught at the top level, reported as a
    critical error, and the CLI exits with 1 as well.  In both cases the
    client is not called and the store is as it was. *)
Theorem migrate_cli_file_problems nd (s : St) url :
  first_non_empty nd = Some url →
  (fs nd (the_cli_file nd) = Missing →
   ∃ t, migrate_cli path_join nd s = (1, s, t) ∧ quiet t ∧
        In (Console (NoteFileMissing (the_cli_file nd))) t) ∧
  (∀ e, fs nd (the_cli_file nd) = Unreadable e →
   ∃ t, migrate_cli path_join nd s = (1, s, t) ∧ quiet t ∧
        In (Console NoteCritical) t).
Proof.
  intros Hurl.
  destruct (databaseUrl_runs (St:=St) nd) as (v & tu & Hu & Hv & Hqu).
  destruct (supabaseUrl_runs (St:=St) nd) as (w & tw & Hw & Hqw).
  rewrite Hurl in Hv.
  assert (Hq0 : ∀ t, quiet t → quiet ([Console NoteBanner] ++ tu ++ tw ++ t)).
  { intros t Ht. apply Forall_app; split; [quiet_trace|].
    apply Forall_app; split; [exact Hqu|]. apply Forall_app; split; [exact Hqw|exact Ht]. }
  assert (Hstart :
    applyMigration path_join nd s
    = (let '(r, s2, t2) :=
         (let! present := existsSync nd (the_cli_file nd) in
          if negb present
          then log (NoteFileMissing (the_cli_file nd));; ret (Some 1)
          else
            let! text := readFileSync nd (the_cli_file nd) in
            log NoteConnecting;;
            match Js.nonempty w with
            | Some u => log (NoteSupabaseUrl u)
            | None => ret tt
            end;;
            (if Js.includes "pooler.supabase.com" url
             then log NotePoolerDetected else ret tt);;
            log NoteConnectionUrl;;
            migrate_with_client (direct_url url) text) s in
       (r, s2, [Console NoteBanner] ++ tu ++ tw ++ t2))).
  { unfold applyMigration.
    rewrite (bind_ret (log NoteBanner) _ s tt s [Console NoteBanner] eq_refl). cbn iota beta.
    rewrite (bind_ret _ _ _ _ _ _ (Hu s)). cbn iota beta.
    rewrite (bind_ret _ _ _ _ _ _ (Hw s)). cbn iota beta. rewrite Hv.
    destruct (bind (existsSync nd (the_cli_file nd)) _ s) as [[r s2] t2].
    rewrite <- ?app_assoc. reflexivity. }
  unfold migrate_cli. rewrite Hstart. clear Hstart.
  unfold existsSync, readFileSync, bind, log, emit, ret, throw. split.
  - intros ->. cbn [negb]. cbn iota beta.
    eexists. split; [reflexivity|]. split; [apply Hq0; quiet_trace|].
    rewrite !in_app_iff. right. right. right. simpl. auto.
  - intros e ->. cbn [negb]. cbn iota beta.
    eexists. split; [reflexivity|]. split.
    + apply Forall_app; split; [apply Hq0; quiet_trace|quiet_trace].
    + rewrite !in_app_iff. right. simpl. auto.
Qed.

(** The CLI counterpart: exit code, store and calls depend on the first
    non-empty descriptor, the migration file and the store only. *)
Lemma migrate_cli_depends_only_on nd nd' (s : St) :
  first_non_empty nd = first_non_empty nd' →
  fs nd (the_cli_file nd) = fs nd' (the_cli_file nd') →
  ∃ code s' t t',
    migrate_cli path_join nd s = (code, s', t) ∧
    migrate_cli path_join nd' s = (code, s', t') ∧
    store_calls t = store_calls t'.
Proof.
  intros Hurl Hfile.
  destruct (migrate_cli_cases path_join nd s) as (t0 & Hq0 & Hcase).
  destruct (migrate_cli_cases path_join nd' s) as (t0' & Hq0' & Hcase').
  rewrite <- Hurl, <- Hfile in Hcase'.
  destruct (first_non_empty nd) as [url|].
  - destruct (fs nd (the_cli_file nd)) as [|text|e].
    + do 4 eexists. split; [exact Hcase|]. split; [exact Hcase'|].
      rewrite !quiet_store_calls by assumption. reflexivity.
    + destruct Hcase as (r1 & s1 & t1 & tz & Hblock & Hqz & Hcli).
      destruct Hcase' as (r1' & s1' & t1' & tz' & Hblock' & Hqz' & Hcli').
      rewrite Hblock in Hblock'. injection Hblock' as <- <- <-.
      do 4 eexists. split; [exact Hcli|]. split; [exact Hcli'|].
      rewrite !store_calls_app, !(quiet_store_calls t0), !(quiet_store_calls t0'),
        !(quiet_store_calls tz), !(quiet_store_calls tz') by assumption. reflexivity.
    + do 4 eexists. split; [exact Hcase|]. split; [exact Hcase'|].
      rewrite !quiet_store_calls by assumption. reflexivity.
  - destruct Hcase as [Hcase _]. destruct Hcase' as [Hcase' _].
    do 4 eexists. split; [exact Hcase|]. split; [exact Hcase'|].
    rewrite !quiet_store_calls by assumption. reflexivity.
Qed.

(** X10: a variable of the environment that is set to the empty string
    counts as unset, for the route and for the CLI: removing it changes
    neither the answer (or exit code), nor the store, nor the calls of the
    client.  This holds for every name, the descriptor names, [NODE_ENV] and
    [MIGRATION_SECRET] included. *)
Theorem empty_variable_is_unset nd req (s : St) name :
  env nd !! name = Some "" →
  let nd' := {| env := delete name (env nd); cwd := cwd nd;
                dirname := dirname nd; fs := fs nd |} in
  (∃ r s' t t',
     POST path_join nd req s = (r, s', t) ∧
     POST path_join nd' req s = (r, s', t') ∧
     store_calls t = store_calls t') ∧
  (∃ code s' t t',
     migrate_cli path_join nd s = (code, s', t) ∧
     migrate_cli path_join nd' s = (code, s', t') ∧
     store_calls t = store_calls t').
Proof.
  intros Hempty nd'.
  assert (Hlook : ∀ k, Js.nonempty (env nd' !! k) = Js.nonempty (env nd !! k)).
  { intros k. simpl. rewrite lookup_delete.
    destruct (decide (name = k)) as [<-|_]; [rewrite Hempty|]; reflexivity. }
  assert (Hsome : ∀ k v, v ≠ "" → env nd' !! k = Some v ↔ env nd !! k = Some v).
  { intros k v Hv. simpl. rewrite lookup_delete.
    destruct (decide (name = k)) as [<-|_]; [|reflexivity].
    rewrite Hempty. split; [discriminate|congruence]. }
  assert (Hurl : first_non_empty nd = first_non_empty nd').
  { unfold first_non_empty, descriptor_names. simpl omap. rewrite !Hlook. reflexivity. }
  split.
  - apply POST_same_run; [|exact Hurl|reflexivity].
    unfold admitted. rewrite (Hsome "NODE_ENV" "production") by discriminate.
    split; (intros [Hdev|(secret & Hsec & Hne & Hhdr)]; [left; exact Hdev|right]);
      exists secret; (split; [|auto]).
    + apply (Hsome _ _ Hne). exact Hsec.
    + apply (Hsome _ _ Hne). exact Hsec.
  - apply migrate_cli_depends_only_on; [exact Hurl|reflexivity].
Qed.

End Paths.

(** X11: the route and the CLI do not always agree on what an
    already-exists failure is.  The route adds its soothing note exactly
    when the message contains "already exists"; the CLI gives its
    already-exists advice only when the message contains "already exists"
    and none of "getaddrinfo", "ENOTFOUND", "password", "authentication",
    which it looks for first.  So the advice of the CLI implies the note of
    the route, and with the note of the route the CLI never falls back to
    its general advice. *)
Theorem advice_and_note msg :
  (message (apply_failed (Js.ErrorObj msg)) = Some already_exists_note ↔
   Js.includes "already exists" msg = true) ∧
  (advice msg = AdviceAlreadyExists ↔
   Js.includes "already exists" msg = true ∧
   Js.includes "getaddrinfo" msg = false ∧ Js.includes "ENOTFOUND" msg = false ∧
   Js.includes "password" msg = false ∧ Js.includes "authentication" msg = false) ∧
  (advice msg = AdviceAlreadyExists →
   message (apply_failed (Js.ErrorObj msg)) = Some already_exists_note) ∧
  (message (apply_failed (Js.ErrorObj msg)) = Some already_exists_note →
   advice msg ≠ AdviceGeneral).
Proof.
  unfold advice, apply_failed. cbn [message Js.error_message].
  destruct (Js.includes "already exists" msg);
    destruct (Js.includes "getaddrinfo" msg);
    destruct (Js.includes "ENOTFOUND" msg);
    destruct (Js.includes "password" msg);
    destruct (Js.includes "authentication" msg);
    cbn [orb]; repeat split; try discriminate; try reflexivity;
    try (intros (? & ? & ? & ? & ?); discriminate); try (intros; discriminate).
Qed.

Lemma prefix_cons_ne c d s : c ≠ d → String.prefix (String c EmptyString) (String d s) = false.
Proof. intros Hne. simpl. destruct (ascii_dec c d); [contradiction|reflexivity]. Qed.

Lemma before_excludes c s : Js.includes (String c EmptyString) (Js.before c s) = false.
Proof.
  induction s as [|d s IH]; [reflexivity|].
  cbn [Js.before]. destruct (Ascii.eqb_spec c d) as [->|Hne]; [reflexivity|].
  cbn [Js.includes]. rewrite (prefix_cons_ne c d _ Hne). exact IH.
Qed.

Lemma before_keeps c s :
  Js.includes (String c EmptyString) s = false → Js.before c s = s.
Proof.
  induction s as [|d s IH]; [reflexivity|].
  cbn [Js.before Js.includes]. intros Hno. apply orb_false_iff in Hno as [Hp Hrest].
  destruct (Ascii.eqb_spec c d) as [->|Hne].
  - simpl in Hp. destruct (ascii_dec d d); [destruct s; discriminate|contradiction].
  - rewrite IH by exact Hrest. reflexivity.
Qed.

(** X12: the connection string the CLI derives from a pooler URL holds no
    question mark: with the host rewritten, everything from the first [?]
    on is cut off, query parameters and whatever comes after them.  The
    string is then a prefix-cut of the rewritten URL; a URL that does not
    name the pooler host is used as it is, query string included. *)
Theorem direct_url_has_no_query url :
  (Js.includes "pooler.supabase.com" url = true →
   Js.includes "?" (direct_url url) = false ∧
   direct_url url
     = Js.before "?" (Js.replace "pooler.supabase.com" "db.supabase.co" url)) ∧
  (Js.includes "pooler.supabase.com" url = false → direct_url url = url).
Proof.
  unfold direct_url. split; intros Hpool; rewrite Hpool; [|reflexivity].
  destruct (Js.includes "?" (Js.replace "pooler.supabase.com" "db.supabase.co" url))
    eqn:Hq.
  - split; [apply before_excludes|reflexivity].
  - split; [exact Hq|]. symmetry. apply before_keeps, Hq.
Qed.

(** ** The users route, the pages and the clients *)

Lemma or_else_empty a b :
  Supabase.or_else a (Supabase.or_else b "") = "" ↔ Js.nonempty a = None ∧ Js.nonempty b = None.
Proof.
  unfold Supabase.or_else.
  destruct (Js.nonempty a) as [x|] eqn:Ha.
  - apply nonempty_Some in Ha as [_ Hx]. split; [intros ->; contradiction|intros [? _]; discriminate].
  - destruct (Js.nonempty b) as [y|] eqn:Hb.
    + apply nonempty_Some in Hb as [_ Hy]. split; [intros ->; contradiction|intros [_ ?]; discriminate].
    + split; auto.
Qed.

(** X13: evaluated in one and the same environment, lib/supabase-server.ts
    and lib/supabase.ts read the Supabase URL from the same two names in
    opposite orders, so they resolve the same URL unless both names are set,
    non-empty, to different values; and whenever the server module warns
    that URL or key is missing, the other module warns as well (the server
    module has one more name to take its key from). *)
Theorem supabase_clients_agree (env : gmap string string) :
  (Js.nonempty (env !! "SUPABASE_URL") = None ∨
   Js.nonempty (env !! "NEXT_PUBLIC_SUPABASE_URL") = None ∨
   env !! "SUPABASE_URL" = env !! "NEXT_PUBLIC_SUPABASE_URL" →
   Supabase.server_url env = Supabase.anon_url env) ∧
  (Supabase.server_url env = "" ↔ Supabase.anon_url env = "") ∧
  (Supabase.server_key env = "" → Supabase.anon_key env = "") ∧
  (Supabase.server_warns env = true → Supabase.anon_warns env = true).
Proof.
  assert (Hurl : Supabase.server_url env = "" ↔ Supabase.anon_url env = "").
  { unfold Supabase.server_url, Supabase.anon_url. rewrite !or_else_empty. tauto. }
  assert (Hkey : Supabase.server_key env = "" → Supabase.anon_key env = "").
  { unfold Supabase.server_key, Supabase.anon_key. rewrite or_else_empty.
    unfold Supabase.or_else.
    destruct (Js.nonempty (env !! "SUPABASE_SERVICE_ROLE_KEY")) as [k|] eqn:Hs.
    { apply nonempty_Some in Hs as [_ Hk]. intros ->. contradiction. }
    destruct (Js.nonempty (env !! "SUPABASE_API_KEY")) as [k|] eqn:Ha.
    { apply nonempty_Some in Ha as [_ Hk]. intros ->. contradiction. }
    destruct (Js.nonempty (env !! "NEXT_PUBLIC_SUPABASE_ANON_KEY")) as [k|] eqn:Hn.
    { apply nonempty_Some in Hn as [_ Hk]. intros ->. contradiction. }
    auto. }
  split; [|split; [exact Hurl|split; [exact Hkey|]]].
  - unfold Supabase.server_url, Supabase.anon_url, Supabase.or_else.
    intros [Ha|[Hb|Heq]].
    + rewrite Ha. destruct (Js.nonempty (env !! "NEXT_PUBLIC_SUPABASE_URL")); reflexivity.
    + rewrite Hb. destruct (Js.nonempty (env !! "SUPABASE_URL")); reflexivity.
    + rewrite Heq. destruct (Js.nonempty (env !! "NEXT_PUBLIC_SUPABASE_URL")); reflexivity.
  - unfold Supabase.server_warns, Supabase.anon_warns.
    intros Hwarn. apply orb_true_iff in Hwarn as [Hu|Hk]; apply orb_true_iff.
    + left. apply String.eqb_eq. apply Hurl. apply String.eqb_eq, Hu.
    + right. apply String.eqb_eq. apply Hkey. apply String.eqb_eq, Hk.
Qed.

(** X14: the users route answers 200 with [success: true] exactly when the
    query came back without an error; then [count] is the number of rows in
    [data], also when the reply holds no rows at all ([data] is then the
    empty list and [count] is 0).  Every other reply (an error in it, or a
    rejection) is answered 500 with [success: false] and neither [data] nor
    [count]. *)
Theorem users_count_matches_data {U : Type} (r : Supabase.reply U) :
  let b := Users.GET r in
  (Users.success b = true ↔ ∃ d, r = Supabase.Reply d None) ∧
  (Users.success b = true →
   Users.status b = 200 ∧ Users.error b = None ∧
   ∃ rows, Users.data b = Some rows ∧ Users.count b = Some (length rows) ∧
           (r = Supabase.Reply None None → rows = [])) ∧
  (Users.success b = false →
   Users.status b = 500 ∧ Users.data b = None ∧ Users.count b = None).
Proof.
  destruct r as [[rows|] [err|]|e]; simpl; repeat split;
    try discriminate; eauto;
    try (intros [d Heq]; discriminate).
  exists rows. repeat split. discriminate.
Qed.

(** X15: when [loadUsers] has run the page is no longer loading, whatever
    the reply was.  The error is cleared exactly when the query came back
    without an error, and then the list is the rows of the reply (none when
    [data] is null); after a failure the list is the one from before.  The
    page then shows exactly one of its two blocks: when there is a
    non-empty error text, the error box and not the list (the box that
    points to the migration for the text "TABLE_NOT_FOUND", the red box
    with the text otherwise); when there is no error text or an empty one,
    the list and no error box ("no users" for an empty list). *)
Theorem loadUsers_settles {U : Type} (r : Supabase.reply U) (st : Home.state U) :
  let st' := Home.loadUsers r st in
  Home.loading st' = false ∧
  (Home.error st' = None ↔ ∃ d, r = Supabase.Reply d None) ∧
  (∀ rows, r = Supabase.Reply (Some rows) None → Home.users st' = rows) ∧
  (r = Supabase.Reply None None → Home.users st' = []) ∧
  (Home.error st' ≠ None → Home.users st' = Home.users st) ∧
  Home.shows_loading (Home.render st') = false ∧
  (is_Some (Home.shows_error (Home.render st')) ∧ Home.shows_list (Home.render st') = None ∨
   Home.shows_error (Home.render st') = None ∧ is_Some (Home.shows_list (Home.render st'))) ∧
  (∀ text, Home.error st' = Some text → text ≠ "" →
     Home.shows_list (Home.render st') = None ∧
     (text = "TABLE_NOT_FOUND" →
      Home.shows_error (Home.render st') = Some Home.TableNotFound) ∧
     (text ≠ "TABLE_NOT_FOUND" →
      Home.shows_error (Home.render st') = Some (Home.OtherError text))) ∧
  (Home.error st' = None ∨ Home.error st' = Some "" →
     Home.shows_error (Home.render st') = None ∧
     (Home.users st' = [] → Home.shows_list (Home.render st') = Some Home.NoUsers) ∧
     (Home.users st' ≠ [] →
      Home.shows_list (Home.render st') = Some (Home.UserList (Home.users st')))).
Proof.
  assert (Hshown : ∀ st' : Home.state U, Home.loading st' = false →
    (∀ text, Home.error st' = Some text → text ≠ "" →
       Home.shows_list (Home.render st') = None ∧
       (text = "TABLE_NOT_FOUND" →
        Home.shows_error (Home.render st') = Some Home.TableNotFound) ∧
       (text ≠ "TABLE_NOT_FOUND" →
        Home.shows_error (Home.render st') = Some (Home.OtherError text))) ∧
    (Home.error st' = None ∨ Home.error st' = Some "" →
       Home.shows_error (Home.render st') = None ∧
       (Home.users st' = [] → Home.shows_list (Home.render st') = Some Home.NoUsers) ∧
       (Home.users st' ≠ [] →
        Home.shows_list (Home.render st') = Some (Home.UserList (Home.users st'))))).
  { intros st' Hload. unfold Home.render, Js.truthy.
    cbn [Home.shows_error Home.shows_list]. rewrite Hload. cbn [negb andb]. split.
    - intros text Herr Hne. rewrite Herr. unfold Js.nonempty.
      destruct (String.eqb_spec text ""); [contradiction|]. cbn [negb].
      split; [reflexivity|]. split.
      + intros ->. reflexivity.
      + intros Hother. destruct (String.eqb_spec text "TABLE_NOT_FOUND");
          [contradiction|reflexivity].
    - intros Herr.
      assert (Hnone : Js.nonempty (Home.error st') = None)
        by (destruct Herr as [-> | ->]; reflexivity).
      rewrite Hnone. cbn [negb]. split; [reflexivity|]. split.
      + intros ->. reflexivity.
      + intros Hrows. destruct (Home.users st') as [|u rows]; [contradiction|reflexivity]. }
  intros st'.
  assert (Hload : Home.loading st' = false) by reflexivity.
  specialize (Hshown st' Hload). destruct Hshown as [Hwith Hwithout].
  assert (Hfirst :
    (Home.error st' = None ↔ ∃ d, r = Supabase.Reply d None) ∧
    (∀ rows, r = Supabase.Reply (Some rows) None → Home.users st' = rows) ∧
    (r = Supabase.Reply None None → Home.users st' = []) ∧
    (Home.error st' ≠ None → Home.users st' = Home.users st)).
  { subst st'. unfold Home.loadUsers. cbn [Home.loading Home.error Home.users].
    destruct (Home.fetch_users r) as [rows|err] eqn:Hfetch;
      cbn [Home.loading Home.error Home.users].
    - assert (Hr : ∃ d, r = Supabase.Reply d None ∧
                        rows = match d with Some l => l | None => [] end).
      { destruct r as [d [fe|]|e]; simpl in Hfetch.
        - destruct (Home.table_missing fe); discriminate.
        - injection Hfetch as <-. eauto.
        - discriminate. }
      destruct Hr as (d & -> & ->).
      split; [split; [eauto|reflexivity]|].
      split; [intros l [= ->]; reflexivity|].
      split; [intros [= ->]; reflexivity|].
      intros Hne; contradiction.
    - assert (Hr : ¬ ∃ d, r = Supabase.Reply d None).
      { intros (d & ->). discriminate. }
      split; [split; [discriminate|intros Hd; contradiction]|].
      split; [intros l ->; exfalso; eauto|].
      split; [intros ->; exfalso; eauto|].
      reflexivity. }
  destruct Hfirst as (H1 & H2 & H3 & H4).
  split; [exact Hload|]. split; [exact H1|]. split; [exact H2|]. split; [exact H3|].
  split; [exact H4|]. split; [reflexivity|]. split; [|split; [exact Hwith|exact Hwithout]].
  destruct (Home.error st') as [text|] eqn:Herr.
  - destruct (String.eqb_spec text "") as [->|Hne].
    + right. destruct (Hwithout (or_intror eq_refl)) as (He & Hl0 & Hl1).
      split; [exact He|].
      destruct (Home.users st') as [|u rows] eqn:Hu;
        [rewrite Hl0 by reflexivity|rewrite Hl1 by discriminate]; eauto.
    + left. destruct (Hwith text eq_refl Hne) as (Hl & Ht & Ho).
      split; [|exact Hl].
      destruct (String.eqb_spec text "TABLE_NOT_FOUND") as [Heq|Hneq];
        [rewrite (Ht Heq)|rewrite (Ho Hneq)]; eauto.
  - right. destruct (Hwithout (or_introl eq_refl)) as (He & Hl0 & Hl1).
    split; [exact He|].
    destruct (Home.users st') as [|u rows] eqn:Hu;
      [rewrite Hl0 by reflexivity|rewrite Hl1 by discriminate]; eauto.
Qed.

(** X16: how [loadUsers] classes an error in the reply.  An error with code
    PGRST205 or PGRST116, or whose message contains "404", "relation",
    "does not exist" or "Could not find the table", gives the box that
    points to the migration, whatever else it holds.  Any other error gives
    the red box: with the error's message when the error is an instance of
    [Error] (and the message is neither empty nor "TABLE_NOT_FOUND"), with
    "Неизвестная ошибка" instead of the message when it is a plain
    object. *)
Theorem loadUsers_classes_errors {U : Type} d fe (st : Home.state U) :
  let shown := Home.shows_error (Home.render (Home.loadUsers (Supabase.Reply d (Some fe)) st)) in
  (Home.table_missing fe = true → shown = Some Home.TableNotFound) ∧
  (Supabase.code fe = "PGRST205" ∨ Supabase.code fe = "PGRST116" →
   shown = Some Home.TableNotFound) ∧
  (Home.table_missing fe = false → Supabase.is_Error fe = false →
   shown = Some (Home.OtherError "Неизвестная ошибка")) ∧
  (∀ m, Home.table_missing fe = false → Supabase.is_Error fe = true →
        Supabase.message fe = Some m → m ≠ "" → m ≠ "TABLE_NOT_FOUND" →
        shown = Some (Home.OtherError m)).
Proof.
  unfold Home.loadUsers, Home.render, Home.fetch_users.
  cbn [Home.loading Home.error Home.users Home.shows_error].
  assert (Hmissing : Home.table_missing fe = true →
    Home.shows_error (Home.render (Home.loadUsers (Supabase.Reply d (Some fe)) st))
    = Some Home.TableNotFound).
  { intros Hm. unfold Home.loadUsers, Home.render, Home.fetch_users. rewrite Hm. reflexivity. }
  unfold Home.loadUsers, Home.render, Home.fetch_users in Hmissing.
  cbn [Home.loading Home.error Home.users Home.shows_error] in Hmissing.
  split; [exact Hmissing|]. split; [|split].
  - intros Hcode. apply Hmissing. unfold Home.table_missing.
    destruct Hcode as [-> | ->]; reflexivity.
  - intros Hm Hplain. rewrite Hm. unfold Home.thrown_error. rewrite Hplain. reflexivity.
  - intros m Hm Hinst Hmsg Hne Hother. rewrite Hm. unfold Home.thrown_error.
    rewrite Hinst, Hmsg. cbn [Home.error Home.error_text].
    destruct (String.eqb_spec m "TABLE_NOT_FOUND"); [contradiction|].
    unfold Js.nonempty. destruct (String.eqb_spec m ""); [contradiction|].
    destruct (String.eqb_spec m "TABLE_NOT_FOUND"); [contradiction|reflexivity].
Qed.

Section Page.
Context {St : Type} `{PgClient St}.
Variable path_join : list string → string.

(** X17: in production the button of the migration page cannot apply the
    migration: its request carries no [Authorization] header, so whatever
    [MIGRATION_SECRET] is (set or not), the route answers 401 having read
    only [NODE_ENV], the header and [MIGRATION_SECRET]: no descriptor name
    is read, the client is not called, the store is as it was; and the page
    ends with the failure box that reads "Unauthorized". *)
Theorem page_button_is_rejected_in_production nd (s : St) st :
  env nd !! "NODE_ENV" = Some "production" →
  ∃ t, POST path_join nd MigratePage.request s = (unauthorized, s, t) ∧
       t = [EnvRead "NODE_ENV"; HeaderRead "authorization"; EnvRead "MIGRATION_SECRET"] ∧
       Forall (fun e => reads_descriptor e = false ∧ touches_store e = false) t ∧
       quiet t ∧
       MigratePage.applyMigration true (Ret unauthorized) st
       = {| MigratePage.sql := MigratePage.sql st;
            MigratePage.loading := MigratePage.loading st;
            MigratePage.applying := false;
            MigratePage.applyResult :=
              Some {| MigratePage.success := false; MigratePage.message := None;
                      MigratePage.error := Some "Unauthorized";
                      MigratePage.tablesCreated := None |} |}.
Proof.
  intros Hprod.
  exists [EnvRead "NODE_ENV"; HeaderRead "authorization"; EnvRead "MIGRATION_SECRET"].
  split; [|split; [reflexivity|split; [repeat constructor|split; [quiet_trace|reflexivity]]]].
  apply POST_rejected. rewrite gate_production by exact Hprod.
  repeat f_equal. apply orb_true_iff. right.
  apply negb_true_iff, bool_decide_eq_false_2.
  unfold MigratePage.request. simpl. rewrite lookup_singleton_ne by discriminate.
  discriminate.
Qed.

(** X18: what the migration page makes of the route's answer.  After a
    confirmed click the page is no longer applying, and it holds a result:
    a success, with the table names and the message of the answer, exactly
    when the answer carries [success: true]; otherwise a failure whose text
    is the [error] of the answer whenever that is not empty, and
    "Неизвестная ошибка" when the answer has no [error] or an empty one, so
    the text is never empty.  The [message] of a failure answer (the note
    the route adds to an already-exists failure) is not kept.  Without
    confirmation nothing changes. *)
Theorem page_result_follows_the_answer nd req (s : St) st :
  let r := response_of (POST path_join nd req s) in
  let st' := MigratePage.applyMigration true (Ret r) st in
  MigratePage.applyMigration false (Ret r) st = st ∧
  MigratePage.applying st' = false ∧
  MigratePage.sql st' = MigratePage.sql st ∧
  ∃ res, MigratePage.applyResult st' = Some res ∧
    (MigratePage.success res = true ↔ is_success r) ∧
    (is_success r →
     MigratePage.tablesCreated res = tablesCreated r ∧
     MigratePage.message res = message r ∧ MigratePage.error res = None) ∧
    (¬ is_success r →
     MigratePage.message res = None ∧ MigratePage.tablesCreated res = None ∧
     (∃ text, MigratePage.error res = Some text ∧ text ≠ "" ∧
              (error r = Some text ∨ text = "Неизвестная ошибка")) ∧
     (∀ text, error r = Some text → text ≠ "" → MigratePage.error res = Some text) ∧
     (error r = None ∨ error r = Some "" →
      MigratePage.error res = Some "Неизвестная ошибка")).
Proof.
  intros r st'. split; [reflexivity|]. split; [reflexivity|]. split; [reflexivity|].
  destruct (POST_runs path_join nd req s) as (r' & s' & t & Hrun & Hshape & _).
  assert (Hr : r = r') by (unfold r, response_of; rewrite Hrun; reflexivity).
  subst st'. rewrite Hr. clear r Hr. unfold MigratePage.applyMigration. cbn [negb].
  eexists. split; [reflexivity|].
  unfold is_success, body_success, body_message, body_error, body_tablesCreated.
  assert (Hfail : ∀ resp : Response, success resp ≠ Some true →
    let res := {| MigratePage.success := false; MigratePage.message := None;
                  MigratePage.error :=
                    Some (match Js.nonempty (error resp) with
                          | Some e => e
                          | None => "Неизвестная ошибка"
                          end);
                  MigratePage.tablesCreated := None |} in
    (MigratePage.success res = true ↔ success resp = Some true) ∧
    (success resp = Some true →
     MigratePage.tablesCreated res = tablesCreated resp ∧
     MigratePage.message res = message resp ∧ MigratePage.error res = None) ∧
    (success resp ≠ Some true →
     MigratePage.message res = None ∧ MigratePage.tablesCreated res = None ∧
     (∃ text, MigratePage.error res = Some text ∧ text ≠ "" ∧
              (error resp = Some text ∨ text = "Неизвестная ошибка")) ∧
     (∀ text, error resp = Some text → text ≠ "" → MigratePage.error res = Some text) ∧
     (error resp = None ∨ error resp = Some "" →
      MigratePage.error res = Some "Неизвестная ошибка"))).
  { intros resp Hno res. subst res. cbn [MigratePage.success MigratePage.message
      MigratePage.error MigratePage.tablesCreated].
    split; [split; [discriminate|intros Hyes; contradiction]|].
    split; [intros Hyes; contradiction|]. intros _.
    split; [reflexivity|]. split; [reflexivity|]. split; [|split].
    - destruct (Js.nonempty (error resp)) as [e|] eqn:He.
      + apply nonempty_Some in He as [He Hne]. exists e. auto.
      + eexists. split; [reflexivity|]. split; [discriminate|]. right. reflexivity.
    - intros text Herr Hne. rewrite Herr. unfold Js.nonempty.
      destruct (String.eqb_spec text ""); [contradiction|reflexivity].
    - intros [-> | ->]; reflexivity. }
  destruct Hshape as [| | |tables|e].
  1-3: rewrite bool_decide_eq_false_2 by discriminate;
       apply Hfail; discriminate.
  - rewrite bool_decide_eq_true_2 by reflexivity. simpl.
    split; [split; reflexivity|]. split; [intros _; repeat split|].
    intros Hno. exfalso. apply Hno. reflexivity.
  - rewrite bool_decide_eq_false_2 by discriminate. apply Hfail. discriminate.
Qed.

Lemma GET_answer nd (s : St) :
  response_of (GET path_join nd s)
  = match fs nd (path_join [cwd nd; "migrations"; migration_name]) with
    | Missing => not_found
    | File text => script_text text
    | Unreadable e => read_failed e
    end.
Proof.
  unfold response_of, GET, GET_try. open_act.
  destruct (fs nd (path_join [cwd nd; "migrations"; migration_name])); reflexivity.
Qed.

(** X19: what the migration page shows of the script once its loading
    effect has run on the answer of [GET]: the script with its buttons
    exactly when the migration file reads and is not empty; in every other
    case (nothing at the path, a read that throws, an empty file, or a
    failed fetch) the advice to open the file by hand.  It no longer shows
    "loading", and the copy button copies exactly the script shown. *)
Theorem page_shows_the_script nd (s : St) :
  let st' := MigratePage.load (Some (response_of (GET path_join nd s))) MigratePage.initial in
  MigratePage.loading st' = false ∧
  MigratePage.script_panel (MigratePage.load None MigratePage.initial)
    = MigratePage.OpenTheFileByHand ∧
  (∀ text, MigratePage.script_panel st' = MigratePage.Script text ↔
           fs nd (path_join [cwd nd; "migrations"; migration_name]) = File text ∧ text ≠ "") ∧
  (MigratePage.script_panel st' = MigratePage.OpenTheFileByHand ↔
   ¬ ∃ text, fs nd (path_join [cwd nd; "migrations"; migration_name]) = File text ∧
             text ≠ "") ∧
  (∀ text, MigratePage.copyToClipboard st' = Some text ↔
           MigratePage.script_panel st' = MigratePage.Script text).
Proof.
  intros st'. subst st'. rewrite GET_answer.
  unfold MigratePage.load, MigratePage.script_panel, MigratePage.copyToClipboard, body_sql.
  split; [reflexivity|]. split; [reflexivity|].
  destruct (fs nd (path_join [cwd nd; "migrations"; migration_name])) as [|text|e];
    cbn [sql not_found read_failed script_text Js.nonempty
         MigratePage.sql MigratePage.loading MigratePage.initial].
  - cbn [String.eqb negb]. split; [|split].
    + intros text. split; [discriminate|intros [? _]; discriminate].
    + split; [intros _ (text & ? & _); discriminate|reflexivity].
    + intros text. split; discriminate.
  - destruct (String.eqb_spec text "") as [->|Hfull];
      cbn [MigratePage.sql MigratePage.loading]; cbn [String.eqb negb].
    + split; [|split].
      * intros text. split; [discriminate|intros [[= <-] Hne]; contradiction].
      * split; [intros _ (text & [= <-] & Hne); contradiction|reflexivity].
      * intros text. split; discriminate.
    + destruct (String.eqb_spec text ""); [contradiction|]. cbn [negb].
      split; [|split].
      * intros text'. split.
        -- intros [= <-]. auto.
        -- intros [[= <-] _]. reflexivity.
      * split; [discriminate|]. intros Hno. exfalso. apply Hno. eauto.
      * intros text'. split; intros [= <-]; reflexivity.
  - cbn [String.eqb negb]. split; [|split].
    + intros text. split; [discriminate|intros [? _]; discriminate].
    + split; [intros _ (text & ? & _); discriminate|reflexivity].
    + intros text. split; discriminate.
Qed.

End Page.

(** ** The further properties at concrete runs *)

(** A development run on the empty store: success, with the four calls,
    and the table the batch has just created in the list. *)
Lemma POST_success_iff_witness :
  let run := POST posix_join development anonymous fresh in
  run = (response_of run, snd (fst run), trace_of run) ∧
  is_success (response_of run) ∧
  response_of run = applied ["telegram_users"] ∧
  store_calls (trace_of run)
    = [PgConnect direct; PgQuery (Batch script); PgQuery catalog_query; PgEnd].
Proof.
  intros run.
  assert (Hrun : run = (response_of run, snd (fst run), trace_of run)) by reflexivity.
  assert (Hadm : admitted development anonymous) by (left; vm_compute; discriminate).
  split; [exact Hrun|].
  destruct (POST_success_iff posix_join development anonymous fresh _ _ _ Hrun)
    as [Hsound Hcomplete].
  destruct (Hcomplete Hadm direct script fresh [] (snd (fst run))
              [{| table_name := "telegram_users" |}] (snd (fst run)) (snd (fst run))
              eq_refl eq_refl eq_refl eq_refl eq_refl eq_refl) as (Hok & Hr & _).
  split; [exact Hok|]. split; [exact Hr|].
  destruct (Hsound Hok)
    as (_ & url & text & s1 & l & s2 & rows & s3 & Hurl & Hfile & _ & _ & _ & _ & _ & _ & _ & Hcalls).
  injection Hurl as <-. injection Hfile as <-. exact Hcalls.
Defined.

(** The catalog query throws after the batch has run: a 500 although the
    script was executed. *)
Lemma POST_fails_after_the_batch_witness :
  admitted development anonymous ∧
  first_non_empty development = Some direct ∧
  fs development (posix_join [cwd development; "migrations"; migration_name]) = File script ∧
  ∃ t, POST posix_join development anonymous catalog_query_fails
       = (apply_failed (Js.ErrorObj "canceling statement due to statement timeout"), [], t) ∧
       In (PgQuery (Batch script)) t.
Proof.
  assert (Hadm : admitted development anonymous) by (left; vm_compute; discriminate).
  split; [exact Hadm|]. split; [reflexivity|]. split; [reflexivity|].
  set (e := Js.ErrorObj "canceling statement due to statement timeout").
  assert (Hc : pg_connect direct catalog_query_fails = (Ret tt, [Ret []; Throw e; Ret []]))
    by reflexivity.
  assert (Hb : pg_query (Batch script) [Ret []; Throw e; Ret []]
               = (Ret [], [Throw e; Ret []])) by reflexivity.
  assert (Hq : pg_query catalog_query [Throw e; Ret []] = (Throw e, [Ret []]))
    by reflexivity.
  assert (He : pg_end [Ret ([] : list Row)] = (Ret tt, [])) by reflexivity.
  destruct (POST_fails_after_the_batch posix_join development anonymous
              _ _ _ _ _ direct script _ e (Ret tt)
              Hadm eq_refl eq_refl Hc Hb (or_introl Hq) He)
    as (t & Hrun & _ & _ & rest & Hcalls & _).
  exists t. split; [exact Hrun|].
  assert (Hin : In (PgQuery (Batch script)) (store_calls t)) by (rewrite Hcalls; simpl; auto).
  unfold store_calls in Hin. apply filter_In in Hin as [Hin _]. exact Hin.
Defined.

(** Production with the right bearer against development without a header:
    the same answer, store and calls. *)
Lemma POST_depends_only_on_witness :
  (admitted production right_bearer ↔ admitted development anonymous) ∧
  first_non_empty production = first_non_empty development ∧
  ∃ r s' t t',
    POST posix_join production right_bearer fresh = (r, s', t) ∧
    POST posix_join development anonymous fresh = (r, s', t') ∧
    store_calls t = store_calls t'.
Proof.
  assert (Hprod : admitted production right_bearer).
  { right. exists "s3cret". split; [reflexivity|]. split; [discriminate|reflexivity]. }
  assert (Hdev : admitted development anonymous) by (left; vm_compute; discriminate).
  assert (Hiff : admitted production right_bearer ↔ admitted development anonymous) by tauto.
  split; [exact Hiff|]. split; [reflexivity|].
  exact (POST_depends_only_on posix_join production right_bearer development anonymous
           fresh Hiff eq_refl eq_refl).
Defined.

Lemma POST_ignores_the_request_witness :
  env development !! "NODE_ENV" ≠ Some "production" ∧
  POST posix_join development wrong_bearer fresh
    = POST posix_join development anonymous fresh.
Proof.
  assert (Hdev : env development !! "NODE_ENV" ≠ Some "production")
    by (vm_compute; discriminate).
  split; [exact Hdev|].
  exact (proj1 (POST_ignores_the_request_outside_production posix_join development
                  wrong_bearer anonymous fresh Hdev)).
Defined.

(** The CLI on the empty store exits with 0 after the four calls. *)
Lemma migrate_cli_success_iff_witness :
  let run := migrate_cli posix_join development fresh in
  run = (0, snd (fst run), trace_of run) ∧
  store_calls (trace_of run)
    = [PgConnect direct; PgQuery (Batch script); PgQuery catalog_query; PgEnd] ∧
  In (Console NoteDone) (trace_of run).
Proof.
  intros run.
  assert (Hrun : run = (0, snd (fst run), trace_of run)) by reflexivity.
  split; [exact Hrun|].
  destruct (migrate_cli_success_iff posix_join development fresh _ _ _ Hrun)
    as (_ & _ & Hdone).
  destruct (Hdone eq_refl) as (url & text & Hurl & Hfile & Hcalls & Hnote).
  injection Hurl as <-. injection Hfile as <-.
  split; [exact Hcalls|exact Hnote].
Defined.

Lemma POST_file_problems_witness :
  admitted without_file anonymous ∧
  first_non_empty without_file = Some direct ∧
  fs without_file (posix_join [cwd without_file; "migrations"; migration_name]) = Missing ∧
  ∃ t, POST posix_join without_file anonymous fresh = (not_found, fresh, t) ∧ quiet t.
Proof.
  assert (Hadm : admitted without_file anonymous) by (left; vm_compute; discriminate).
  split; [exact Hadm|]. split; [reflexivity|]. split; [reflexivity|].
  destruct (POST_file_problems posix_join without_file anonymous fresh direct Hadm eq_refl)
    as [Hmissing _].
  destruct (Hmissing eq_refl) as (t & Hrun & Hq & _). eauto.
Defined.

Lemma migrate_cli_file_problems_witness :
  first_non_empty without_file = Some direct ∧
  fs without_file (posix_join [dirname without_file; ".."; "migrations"; migration_name])
    = Missing ∧
  ∃ t, migrate_cli posix_join without_file fresh = (1, fresh, t) ∧ quiet t.
Proof.
  split; [reflexivity|]. split; [reflexivity|].
  destruct (migrate_cli_file_problems posix_join without_file fresh direct eq_refl)
    as [Hmissing _].
  destruct (Hmissing eq_refl) as (t & Hrun & Hq & _). eauto.
Defined.

(** SUPABASE_DB_URL set to the empty string: DATABASE_URL is used, as if
    the first name were not there. *)
Lemma empty_variable_is_unset_witness :
  env empty_first !! "SUPABASE_DB_URL" = Some "" ∧
  first_non_empty empty_first = Some direct ∧
  ∃ r s' t t',
    POST posix_join empty_first anonymous fresh = (r, s', t) ∧
    POST posix_join
      {| env := delete "SUPABASE_DB_URL" (env empty_first); cwd := cwd empty_first;
         dirname := dirname empty_first; fs := fs empty_first |} anonymous fresh
      = (r, s', t') ∧
    store_calls t = store_calls t'.
Proof.
  split; [reflexivity|]. split; [reflexivity|].
  exact (proj1 (empty_variable_is_unset posix_join empty_first anonymous fresh
                  "SUPABASE_DB_URL" eq_refl)).
Defined.

(** The page's button in production, with the secret configured. *)
Lemma page_button_is_rejected_witness :
  env production !! "NODE_ENV" = Some "production" ∧
  POST posix_join production MigratePage.request fresh
    = (unauthorized, fresh,
       [EnvRead "NODE_ENV"; HeaderRead "authorization"; EnvRead "MIGRATION_SECRET"]).
Proof.
  split; [reflexivity|].
  destruct (page_button_is_rejected_in_production posix_join production fresh
              MigratePage.initial eq_refl) as (t & Hrun & Ht & _).
  rewrite Hrun, Ht. reflexivity.
Defined.
